(** * Codecs of [common-types/types.ts]

    A shallow embedding of the io-ts based codecs of
    [source/packages/@aws-accelerator/config/lib/common-types/types.ts]:
    [CidrType], [DefaultedType], [OptionalType], [getSize], [SizedType],
    [EnumType], the factories built on them and the exported codecs
    [nonEmptyString], [cidr], [storageClass], [allowDeny], ...

    Conventions of the embedding.
    - JavaScript is untyped at run time, so every codec works on one universe
      of run-time values, [JsValue]; the TypeScript type parameters only
      restrict which values a well-typed caller passes.
    - A JavaScript [number] is modelled by the integer it is: [VNumber n]
      stands for a number when the integer [n] is the value of a double.
      NaN, the infinities and the fractions are outside the embedding.
    - The values are data, as a parser of a configuration document builds
      them: no property of an object holds a function.
    - A JavaScript string is modelled by a Rocq [string], one character per
      UTF-16 code unit of ASCII text, so that [String.length] is [.length].
    - A function call either returns a value or throws: [completion]. *)

From Stdlib Require Import ZArith NArith List String Ascii Bool Lia.
From Stdlib Require Import Decimal DecimalString DecimalN DecimalZ.
Import ListNotations.

#[local] Open Scope string_scope.
#[local] Open Scope Z_scope.

(* ================================================================== *)
(** ** Run-time values *)

(** The network range of the [ip-num] package: an address of four octets
    and a prefix length. *)
Record IPv4CidrRange : Type := mkIPv4CidrRange {
  ipv4 : N * N * N * N;
  cidrPrefix : N
}.

Set Warnings "-register-all".

(** The values a codec can meet at run time.  A [Set] is given by the
    elements it holds and a [Map] by the entries it holds, both in insertion
    order and each held once; a plain object by its own properties. *)
Inductive JsValue : Type :=
| VUndefined
| VNull
| VBoolean (b : bool)
| VNumber (n : Z)
| VString (s : string)
| VArray (elements : list JsValue)
| VSet (elements : list JsValue)
| VMap (entries : list (JsValue * JsValue))
| VObject (properties : list (string * JsValue))
| VCidr (range : IPv4CidrRange).

(** The string holding one double quote character. *)
Definition dquote : string := String (ascii_of_nat 34) EmptyString.

(** [u == null]: loose equality with [null] holds of [null] and
    [undefined] only. *)
Definition loose_eq_null (u : JsValue) : bool :=
  match u with
  | VUndefined | VNull => true
  | _ => false
  end.

(* ================================================================== *)
(** ** Calls that may throw *)

Inductive exn : Type :=
| Error_ (message : string)
| TypeError (message : string).

Inductive completion (A : Type) : Type :=
| Returned (a : A)
| Thrown (e : exn).

Arguments Returned {A} a.
Arguments Thrown {A} e.

Definition bind {A B} (m : completion A) (k : A -> completion B)
  : completion B :=
  match m with
  | Returned a => k a
  | Thrown e => Thrown e
  end.

Declare Scope completion_scope.
Delimit Scope completion_scope with completion.
Notation "x <- m ;; k" := (bind m (fun x => k))
  (at level 61, m at next level, right associativity) : completion_scope.
#[local] Open Scope completion_scope.

(** [try { body } catch (e) { handler }]. *)
Definition try_catch {A} (body : completion A) (handler : exn -> completion A)
  : completion A :=
  match body with
  | Returned a => Returned a
  | Thrown e => handler e
  end.

(* ================================================================== *)
(** ** Conversion to text *)

(** The decimal numeral of a natural number. *)
Definition decimal (n : N) : string := NilZero.string_of_uint (N.to_uint n).

(** The integer [v] rounds to the double [x], for a double [x] above
    [2^53]: [v] is no further from [x] than half the gap to the next
    double on its side, the half gap itself counting when the significand
    of [x] is even.  The distances are doubled to stay in the integers. *)
Definition rounds_to (x v : Z) : bool :=
  let ulp := 2 ^ (Z.log2 x - 52) in
  let m := x / ulp in
  let below := if m =? 2 ^ 52 then ulp / 2 else ulp in
  let d := 2 * (v - x) in
  if Z.even m then (- below <=? d) && (d <=? ulp)
  else (- below <? d) && (d <? ulp).

(** The digits [Number::toString] prints of a double [x] above [2^53]
    that has [digits] decimal digits: the integer [s] of the fewest digits
    [k] such that [s * 10^(n - k)] rounds to [x], the closest to [x] when
    two qualify and the even one when they are as close; with it [n], the
    number of digits of [s * 10^(n - k)]. *)
Fixpoint shortest_digits (fuel : nat) (k : Z) (x digits : Z) : Z * Z :=
  match fuel with
  | O => (x, digits)
  | S fuel' =>
      let unit := 10 ^ (digits - k) in
      let lo := x / unit in
      let hi := lo + 1 in
      let pick (s : Z) :=
        if s =? 10 ^ k then (1, digits + 1) else (s, digits) in
      match rounds_to x (lo * unit), rounds_to x (hi * unit) with
      | true, true =>
          let dl := x - lo * unit in
          let dh := hi * unit - x in
          if dl <? dh then pick lo
          else if dh <? dl then pick hi
          else if Z.even lo then pick lo else pick hi
      | true, false => pick lo
      | false, true => pick hi
      | false, false => shortest_digits fuel' (k + 1) x digits
      end
  end.

Fixpoint zeros (n : nat) : string :=
  match n with
  | O => ""
  | S n' => String "0" (zeros n')
  end.

(** [Number::toString] on an integer above zero.  Up to [2^53] every
    integer is a double and prints as its decimal numeral.  Above, the
    shortest digits that round to the double are printed, followed by
    zeros up to 21 digits and in the exponent form beyond. *)
Definition positive_to_string (x : Z) : string :=
  if x <=? 9007199254740992 then decimal (Z.to_N x)
  else
    let digits := Z.of_nat (String.length (decimal (Z.to_N x))) in
    let '(s, n) := shortest_digits (Z.to_nat digits) 1 x digits in
    let ds := decimal (Z.to_N s) in
    let k := Z.of_nat (String.length ds) in
    if n <=? 21 then ds ++ zeros (Z.to_nat (n - k))
    else
      match ds with
      | EmptyString => ""
      | String a EmptyString => String a ("e+" ++ decimal (Z.to_N (n - 1)))
      | String a rest =>
          String a ("." ++ rest ++ "e+" ++ decimal (Z.to_N (n - 1)))
      end.

(** [Number::toString] on an integer, with a minus sign below zero. *)
Definition number_to_string (n : Z) : string :=
  match n with
  | Z0 => "0"
  | Zpos _ => positive_to_string n
  | Zneg p => "-" ++ positive_to_string (Zpos p)
  end.

(** [Array.prototype.join]. *)
Fixpoint join (sep : string) (l : list string) : string :=
  match l with
  | [] => ""
  | [x] => x
  | x :: rest => x ++ sep ++ join sep rest
  end.

(** The object has an own property of that name. *)
Definition has_own_property (k : string) (properties : list (string * JsValue))
  : bool :=
  existsb (fun kv => String.eqb (fst kv) k) properties.

(** The abstract operation [ToString], as a template literal applies it.
    An array prints its elements joined by commas, [null] and [undefined]
    elements as the empty string.  A plain object is converted by its
    [toString]: without an own property of that name it inherits the one
    of [Object.prototype] and prints as [[object Object]]; an own
    [toString] is no function, [valueOf] yields no primitive either, and
    the conversion throws a [TypeError]. *)
Fixpoint ToString (v : JsValue) : completion string :=
  match v with
  | VUndefined => Returned "undefined"
  | VNull => Returned "null"
  | VBoolean true => Returned "true"
  | VBoolean false => Returned "false"
  | VNumber n => Returned (number_to_string n)
  | VString s => Returned s
  | VArray l =>
      parts <-
        (fix elements (l : list JsValue) : completion (list string) :=
           match l with
           | [] => Returned []
           | x :: rest =>
               text <- match x with
                       | VUndefined | VNull => Returned ""
                       | _ => ToString x
                       end ;;
               texts <- elements rest ;;
               Returned (text :: texts)
           end) l ;;
      Returned (join "," parts)
  | VSet _ => Returned "[object Set]"
  | VMap _ => Returned "[object Map]"
  | VObject properties =>
      if has_own_property "toString" properties
      then Thrown (TypeError "Cannot convert object to primitive value")
      else Returned "[object Object]"
  | VCidr _ => Returned "[object Object]"
  end.

(* ================================================================== *)
(** ** The io-ts and fp-ts interface *)

(** Modelled from the spec: io-ts's [ContextEntry], one step of navigation
    into a structural value, with the name of the codec active there. *)
Record ContextEntry : Type := mkContextEntry {
  key : string;
  codecName : string
}.

Definition Context : Type := list ContextEntry.

(** Modelled from the spec: io-ts's [ValidationError], the offending
    value, the path to it and an optional message. *)
Record ValidationError : Type := mkValidationError {
  value : JsValue;
  context : Context;
  message : option string
}.

(** fp-ts's [Either]. *)
Inductive Either (E A : Type) : Type :=
| Left (e : E)
| Right (a : A).

Arguments Left {E A} e.
Arguments Right {E A} a.

Definition Errors : Type := list ValidationError.
Definition Validation : Type := Either Errors JsValue.

(** Modelled from the spec: [t.success] and [t.failure] of io-ts, the
    latter building the failure of exactly one error. *)
Definition t_success (a : JsValue) : Validation := Right a.

Definition t_failure (v : JsValue) (c : Context) (msg : option string)
  : Validation :=
  Left [mkValidationError v c msg].

(** Modelled from the spec: [either.chain] of fp-ts; a failure is kept as
    it is and the continuation is not run. *)
Definition either_chain (ma : Validation)
    (f : JsValue -> completion Validation) : completion Validation :=
  match ma with
  | Left e => Returned (Left e)
  | Right a => f a
  end.

(** Modelled from the spec: the codec abstraction, io-ts's [Type]: a name,
    the membership predicate [is] (here [is_]), the validating decode and
    the encode. *)
Record Type_ : Type := mkType {
  name : string;
  is_ : JsValue -> completion bool;
  validate : JsValue -> Context -> completion Validation;
  encode : JsValue -> completion JsValue
}.

Definition t_identity (a : JsValue) : completion JsValue := Returned a.

(** Modelled from the spec: [t.string], the text codec, which rejects an
    input that is not a string with a failure carrying no message. *)
Definition t_string : Type_ :=
  let is_string := fun u => match u with VString _ => true | _ => false end in
  {| name := "string";
     is_ := fun u => Returned (is_string u);
     validate := fun u c =>
       Returned (if is_string u then t_success u else t_failure u c None);
     encode := t_identity |}.

(** Modelled from the spec: [t.number], the codec of the numbers. *)
Definition t_number : Type_ :=
  let is_number := fun u => match u with VNumber _ => true | _ => false end in
  {| name := "number";
     is_ := fun u => Returned (is_number u);
     validate := fun u c =>
       Returned (if is_number u then t_success u else t_failure u c None);
     encode := t_identity |}.

(* ================================================================== *)
(** ** [getSize] *)

Definition getSize (withSize : JsValue) : completion Z :=
  match withSize with
  | VNumber n => Returned n
  | VString s => Returned (Z.of_nat (String.length s))
  | VArray l => Returned (Z.of_nat (List.length l))
  | VSet l => Returned (Z.of_nat (List.length l))
  | VMap l => Returned (Z.of_nat (List.length l))
  | _ =>
      text <- ToString withSize ;;
      Thrown (Error_ ("Unsupported size value " ++ text))
  end.

(* ================================================================== *)
(** ** [CidrType] *)

(** The two operations of [ip-num]'s [IPv4CidrRange] the codec calls:
    the static parser [IPv4CidrRange.fromCidr], which throws on a text that
    is no CIDR notation, and the method [toCidrString]. *)
Class IpNum : Type := {
  fromCidr : string -> completion IPv4CidrRange;
  toCidrString : IPv4CidrRange -> string
}.

Section CidrType.
Context `{IpNum}.

(** [value instanceof IPv4CidrRange]. *)
Definition instanceof_IPv4CidrRange (v : JsValue) : bool :=
  match v with
  | VCidr _ => true
  | _ => false
  end.

(** The continuation of [either.chain] in [CidrType]'s validate.  The
    text codec only lets strings through; on any other value the parser
    would throw inside the [try] and the [catch] would answer. *)
Definition CidrType_parse (context : Context) (s : JsValue)
  : completion Validation :=
  let caught :=
    text <- ToString s ;;
    Returned (t_failure s context
                (Some ("Value " ++ text ++ " should be a CIDR range.")))
  in
  match s with
  | VString str =>
      try_catch
        (r <- fromCidr str ;; Returned (t_success (VCidr r)))
        (fun _ => caught)
  | _ => caught
  end.

(** [c => c.toCidrString()]: the method exists on an [IPv4CidrRange]
    only. *)
Definition CidrType_encode (c : JsValue) : completion JsValue :=
  match c with
  | VCidr r => Returned (VString (toCidrString r))
  | VUndefined =>
      Thrown (TypeError
                "Cannot read properties of undefined (reading 'toCidrString')")
  | VNull =>
      Thrown (TypeError
                "Cannot read properties of null (reading 'toCidrString')")
  | _ => Thrown (TypeError "c.toCidrString is not a function")
  end.

Definition CidrType (name_ : option string) : Type_ :=
  {| name := match name_ with Some n => n | None => "Cidr" end;
     is_ := fun v => Returned (instanceof_IPv4CidrRange v);
     validate := fun str context =>
       r <- validate t_string str context ;;
       either_chain r (CidrType_parse context);
     encode := CidrType_encode |}.

End CidrType.

(* ================================================================== *)
(** ** [DefaultedType] and [OptionalType] *)

Definition DefaultedType (type : Type_) (defaultValue : JsValue)
    (name_ : option string) : Type_ :=
  {| name := match name_ with
             | Some n => n
             | None => "Default<" ++ name type ++ ">"
             end;
     is_ := is_ type;
     validate := fun u c =>
       if loose_eq_null u then Returned (t_success defaultValue)
       else validate type u c;
     encode := encode type |}.

Definition OptionalType (type : Type_) (name_ : option string) : Type_ :=
  {| name := match name_ with
             | Some n => n
             | None => "Optional<" ++ name type ++ ">"
             end;
     is_ := fun u => if loose_eq_null u then Returned true else is_ type u;
     validate := fun u c =>
       if loose_eq_null u then Returned (t_success VUndefined)
       else validate type u c;
     encode := encode type |}.

(* ================================================================== *)
(** ** [SizedType] *)

Module SizedTypeProps.
Record t : Type := mk {
  min : option Z;
  max : option Z;
  name : option string;
  errorMessage : option string
}.

(** The default [props = {}]. *)
Definition empty : t := mk None None None None.
End SizedTypeProps.

(** Truthiness of an optional number: [undefined] and [0] are falsy. *)
Definition truthy (bound : option Z) : bool :=
  match bound with
  | None => false
  | Some z => negb (z =? 0)
  end.

(** [size >= bound] and [size <= bound]; a comparison with [undefined] is
    false. *)
Definition size_ge (size : Z) (bound : option Z) : bool :=
  match bound with
  | None => false
  | Some z => z <=? size
  end.

Definition size_le (size : Z) (bound : option Z) : bool :=
  match bound with
  | None => false
  | Some z => size <=? z
  end.

(** The message [SizedType] generates when none was supplied. *)
Definition SizedType_message (props : SizedTypeProps.t) : string :=
  match SizedTypeProps.errorMessage props with
  | Some m => m
  | None =>
      "Value" ++ " should be of size ["
      ++ match SizedTypeProps.min props with
         | Some z => number_to_string z
         | None => "-∞"
         end
      ++ ", "
      ++ match SizedTypeProps.max props with
         | Some z => number_to_string z
         | None => "∞"
         end
      ++ "]"
  end.

(** The continuation of [either.chain] in [SizedType]'s validate. *)
Definition SizedType_check (props : SizedTypeProps.t) (c : Context)
    (s : JsValue) : completion Validation :=
  size <- getSize s ;;
  let minValid :=
    negb (truthy (SizedTypeProps.min props))
    || (truthy (SizedTypeProps.min props)
        && size_ge size (SizedTypeProps.min props)) in
  let maxValid :=
    negb (truthy (SizedTypeProps.max props))
    || (truthy (SizedTypeProps.max props)
        && size_le size (SizedTypeProps.max props)) in
  if minValid && maxValid then Returned (t_success s)
  else Returned (t_failure s c (Some (SizedType_message props))).

Definition SizedType (type : Type_) (props : SizedTypeProps.t) : Type_ :=
  {| name := match SizedTypeProps.name props with
             | Some n => n
             | None => "Sized<" ++ name type ++ ">"
             end;
     is_ := is_ type;
     validate := fun u c =>
       r <- validate type u c ;;
       either_chain r (SizedType_check props c);
     encode := encode type |}.

(* ================================================================== *)
(** ** [EnumType] *)

Module EnumTypeProps.
Record t : Type := mk {
  name : string;
  errorMessage : option string
}.
End EnumTypeProps.

(** The allowed values of an enumeration: [T extends string | number]. *)
Inductive Literal : Type :=
| LString (s : string)
| LNumber (n : Z).

Definition literal_value (v : Literal) : JsValue :=
  match v with
  | LString s => VString s
  | LNumber n => VNumber n
  end.

(** [v === u] for a string or number [v]: the same type and the same
    value. *)
Definition strict_equals (v : Literal) (u : JsValue) : bool :=
  match v, u with
  | LString s, VString s' => String.eqb s s'
  | LNumber n, VNumber n' => n =? n'
  | _, _ => false
  end.

(** [ToString] of an allowed value, which returns: a string is itself and
    a number prints by [Number::toString]. *)
Definition literal_to_string (v : Literal) : string :=
  match v with
  | LString s => s
  | LNumber n => number_to_string n
  end.

(** The message [EnumType] generates when none was supplied. *)
Definition EnumType_message (values : list Literal)
    (props : EnumTypeProps.t) : string :=
  match EnumTypeProps.errorMessage props with
  | Some m => m
  | None =>
      "Value should be one of " ++ dquote
      ++ join (dquote ++ ", " ++ dquote) (map literal_to_string values)
      ++ dquote
  end.

(** [values.some(v => v === u)]. *)
Definition EnumType_is (values : list Literal) (u : JsValue) : bool :=
  existsb (fun v => strict_equals v u) values.

Definition EnumType (values : list Literal) (props : EnumTypeProps.t)
  : Type_ :=
  {| name := EnumTypeProps.name props;
     is_ := fun u => Returned (EnumType_is values u);
     validate := fun u c =>
       if EnumType_is values u then Returned (t_success u)
       else Returned (t_failure u c (Some (EnumType_message values props)));
     encode := t_identity |}.

(* ================================================================== *)
(** ** Factories and exported codecs *)

Definition defaulted (type : Type_) (defaultValue : JsValue)
    (name_ : option string) : Type_ :=
  DefaultedType type defaultValue name_.

Definition sized (type : Type_) (props : SizedTypeProps.t) : Type_ :=
  SizedType type props.

Definition enums (name_ : string) (values : list Literal)
    (errorMessage : option string) : Type_ :=
  EnumType values (EnumTypeProps.mk name_ errorMessage).

Definition optional (wrapped : Type_) (name_ : option string) : Type_ :=
  OptionalType wrapped name_.

Definition nonEmptyString : Type_ :=
  sized t_string
    (SizedTypeProps.mk (Some 1) None None (Some "Value can not be empty.")).

Definition storageClass_values : list Literal :=
  [ LString "DEEP_ARCHIVE";
    LString "GLACIER";
    LString "GLACIER_IR";
    LString "STANDARD_IA";
    LString "INTELLIGENT_TIERING";
    LString "ONEZONE_IA";
    LString "Value should be an AWS S3 Storage Class." ].

Definition storageClass : Type_ :=
  enums "storageClass" storageClass_values None.

Definition allowDeny : Type_ :=
  enums "AllowDeny" [LString "allow"; LString "deny"]
    (Some "Value should be allow or deny").

Definition enableDisable : Type_ :=
  enums "EnableDisable" [LString "enable"; LString "disable"]
    (Some "Value should be enable or disable").

Definition availabilityZone : Type_ :=
  enums "AvailabilityZone"
    [LString "a"; LString "b"; LString "c"; LString "d"; LString "e";
     LString "f"]
    None.

(* ================================================================== *)
(** ** The network range parser and printer *)

(** [s.split(sep)] for a separator of one character. *)
Fixpoint split (sep : ascii) (s : string) : list string :=
  match s with
  | EmptyString => [""]
  | String a rest =>
      if Ascii.eqb a sep then "" :: split sep rest
      else match split sep rest with
           | [] => [String a ""]
           | x :: xs => String a x :: xs
           end
  end.

(** A non-empty run of decimal digits and the number it denotes. *)
Definition parse_decimal (s : string) : option N :=
  match s with
  | EmptyString => None
  | _ => option_map N.of_uint (NilEmpty.uint_of_string s)
  end.

Definition parse_bounded (bound : N) (s : string) : option N :=
  match parse_decimal s with
  | Some n => if (n <=? bound)%N then Some n else None
  | None => None
  end.

(** The text [a.b.c.d/n] read as it is written: four octets, each a
    decimal numeral of at most 255, and a prefix length, a decimal numeral
    of at most 32.  Leading zeros are read and not kept. *)
Definition parse_cidr (s : string) : completion IPv4CidrRange :=
  match split "/" s with
  | [ip; prefix] =>
      match split "." ip with
      | [a; b; c; d] =>
          match parse_bounded 255 a, parse_bounded 255 b,
                parse_bounded 255 c, parse_bounded 255 d with
          | Some a', Some b', Some c', Some d' =>
              match parse_bounded 32 prefix with
              | Some p => Returned (mkIPv4CidrRange (a', b', c', d') p)
              | None => Thrown (Error_ "The prefix length is not in [0,32]")
              end
          | _, _, _, _ => Thrown (Error_ "The address is malformed")
          end
      | _ => Thrown (Error_ "The address does not have four octets")
      end
  | _ => Thrown (Error_ "The text is not of the form address/prefixLength")
  end.

(** The address as one number of 32 bits, and the range with the bits of
    the address beyond the prefix set to zero. *)
Definition address_number (r : IPv4CidrRange) : N :=
  let '(a, b, c, d) := ipv4 r in
  (((a * 256 + b) * 256 + c) * 256 + d)%N.

Definition clear_host_bits (r : IPv4CidrRange) : IPv4CidrRange :=
  let host := (32 - cidrPrefix r)%N in
  let n := N.shiftl (N.shiftr (address_number r) host) host in
  mkIPv4CidrRange
    ((n / 16777216) mod 256, (n / 65536) mod 256, (n / 256) mod 256,
     n mod 256)%N
    (cidrPrefix r).

(** Modelled from the spec: [IPv4CidrRange.fromCidr] of [ip-num], the
    parser of the notation [a.b.c.d/n].  It throws on a wrong number of
    octets, a malformed address (an octet that is no decimal numeral or
    exceeds 255) and a prefix length outside [0,32].  The range it returns
    holds the network address: the bits of the address beyond the prefix
    are zeroed, so host bits set in the text are not kept. *)
Definition IPv4CidrRange_fromCidr (s : string) : completion IPv4CidrRange :=
  r <- parse_cidr s ;; Returned (clear_host_bits r).

(** Modelled from the spec: [IPv4CidrRange.prototype.toCidrString] of
    [ip-num], the canonical text [a.b.c.d/prefixLength] of the network
    address and the prefix length the range holds. *)
Definition IPv4CidrRange_toCidrString (r : IPv4CidrRange) : string :=
  let '(a, b, c, d) := ipv4 r in
  decimal a ++ "." ++ decimal b ++ "." ++ decimal c ++ "." ++ decimal d
  ++ "/" ++ decimal (cidrPrefix r).

#[export] Instance ip_num : IpNum :=
  {| fromCidr := IPv4CidrRange_fromCidr;
     toCidrString := IPv4CidrRange_toCidrString |}.

Definition cidr : Type_ := CidrType None.

(** The address has no bit set beyond the prefix: it is the network
    address of the range. *)
Definition host_bits_clear (r : IPv4CidrRange) : bool :=
  (address_number r mod 2 ^ (32 - cidrPrefix r) =? 0)%N.

(** Four octets and a prefix length in [0,32]. *)
Definition range_in_bounds (r : IPv4CidrRange) : bool :=
  let '(a, b, c, d) := ipv4 r in
  ((a <=? 255) && (b <=? 255) && (c <=? 255) && (d <=? 255)
   && (cidrPrefix r <=? 32))%N.

(** A valid network range, as the data model has it: four octets, a
    prefix length in [0,32], and as address the network address. *)
Definition valid_range (r : IPv4CidrRange) : bool :=
  range_in_bounds r && host_bits_clear r.

(** A decimal numeral in canonical form: digits only, and no leading zero
    but for the numeral [0] itself. *)
Definition is_digit (a : ascii) : bool :=
  ((48 <=? N_of_ascii a) && (N_of_ascii a <=? 57))%N.

Fixpoint all_digits (s : string) : bool :=
  match s with
  | EmptyString => true
  | String a rest => is_digit a && all_digits rest
  end.

Definition canonical_numeral (s : string) : bool :=
  match s with
  | EmptyString => false
  | String "0" EmptyString => true
  | String "0" _ => false
  | _ => all_digits s
  end.

(** The notation [a.b.c.d/n] with five canonical numerals, the octets at
    most 255 and the prefix length at most 32. *)
Definition canonical_numerals (s : string) : bool :=
  match split "/" s with
  | [ip; prefix] =>
      match split "." ip with
      | [a; b; c; d] =>
          forallb canonical_numeral [a; b; c; d; prefix]
          && forallb (fun x => match parse_bounded 255 x with
                               | Some _ => true
                               | None => false
                               end) [a; b; c; d]
          && match parse_bounded 32 prefix with
             | Some _ => true
             | None => false
             end
      | _ => false
      end
  | _ => false
  end.

(** A text in canonical CIDR notation: five canonical numerals that
    write a network address and its prefix length. *)
Definition canonical_cidr (s : string) : bool :=
  canonical_numerals s
  && match parse_cidr s with
     | Returned r => host_bits_clear r
     | Thrown _ => false
     end.

(* ================================================================== *)
(** ** Notions the properties are stated with *)

(** Membership among the allowed values of an enumeration. *)
Definition allowed (values : list Literal) (u : JsValue) : Prop :=
  exists v, In v values /\ u = literal_value v.

(** The shapes of the TypeScript type [WithSize]. *)
Definition WithSize (v : JsValue) : bool :=
  match v with
  | VNumber _ | VString _ | VArray _ | VSet _ | VMap _ => true
  | _ => false
  end.

(** A codec whose every operation throws: reaching it is observable. *)
Definition unreachable_codec : Type_ :=
  {| name := "unreachable";
     is_ := fun _ => Thrown (Error_ "is was invoked");
     validate := fun _ _ => Thrown (Error_ "validate was invoked");
     encode := fun _ => Thrown (Error_ "encode was invoked") |}.

(** The size is within the bounds that are set; an unset bound excludes
    no size. *)
Definition within_bounds (size : Z) (props : SizedTypeProps.t) : Prop :=
  (forall m, SizedTypeProps.min props = Some m -> m <= size) /\
  (forall M, SizedTypeProps.max props = Some M -> size <= M).

(** An allowed value between double quotes. *)
Definition quoted (v : Literal) : string :=
  dquote ++ literal_to_string v ++ dquote.

(** The invariant of the codec abstraction: the value of a successful
    validate satisfies [is]. *)
Definition validate_sound (T : Type_) : Prop :=
  forall u c a, validate T u c = Returned (Right a) -> is_ T a = Returned true.

(** The text has no occurrence of the character. *)
Fixpoint free_of (sep : ascii) (s : string) : bool :=
  match s with
  | EmptyString => true
  | String a rest => negb (Ascii.eqb a sep) && free_of sep rest
  end.

(** The bounds with a bound that is zero taken away. *)
Definition drop_zero_bound (bound : option Z) : option Z :=
  match bound with
  | Some 0 => None
  | _ => bound
  end.

Definition drop_zero_bounds (props : SizedTypeProps.t) : SizedTypeProps.t :=
  SizedTypeProps.mk
    (drop_zero_bound (SizedTypeProps.min props))
    (drop_zero_bound (SizedTypeProps.max props))
    (SizedTypeProps.name props)
    (SizedTypeProps.errorMessage props).

(** The round trip of a codec: a value its validate succeeds with is
    encoded, and in every context the validate of the encoding succeeds
    with that value again. *)
Definition round_trip (T : Type_) : Prop :=
  forall u c a,
    validate T u c = Returned (Right a) ->
    exists o,
      encode T a = Returned o /\
      forall c', validate T o c' = Returned (Right a).

(** The codec decodes to present values and encodes them to present
    values: neither side of it is [null] or [undefined]. *)
Definition present_values (T : Type_) : Prop :=
  forall u c a,
    validate T u c = Returned (Right a) ->
    loose_eq_null a = false /\
    forall o, encode T a = Returned o -> loose_eq_null o = false.

(* ================================================================== *)
(** * Properties *)

(** ** Shared facts *)

Lemma loose_eq_null_present (u : JsValue) :
  u <> VNull -> u <> VUndefined -> loose_eq_null u = false.
Proof.
  intros Hnull Hundef. destruct u; try reflexivity; congruence.
Qed.

Lemma bind_Returned {A B} (m : completion A) (k : A -> completion B) (b : B) :
  bind m k = Returned b -> exists a, m = Returned a /\ k a = Returned b.
Proof.
  destruct m as [a | e]; simpl; intros E; [eauto | discriminate].
Qed.

Lemma strict_equals_true (v : Literal) (u : JsValue) :
  strict_equals v u = true <-> u = literal_value v.
Proof.
  destruct v as [s | n], u; simpl; split; intros E;
    try discriminate; try congruence.
  - apply String.eqb_eq in E. now subst.
  - injection E as ->. apply String.eqb_refl.
  - apply Z.eqb_eq in E. now subst.
  - injection E as ->. apply Z.eqb_refl.
Qed.

Lemma EnumType_is_true (values : list Literal) (u : JsValue) :
  EnumType_is values u = true <-> allowed values u.
Proof.
  unfold EnumType_is, allowed. rewrite existsb_exists.
  split; intros [v [Hin E]]; exists v; split; auto;
    now apply strict_equals_true.
Qed.

Lemma EnumType_is_false (values : list Literal) (u : JsValue) :
  EnumType_is values u = false <-> ~ allowed values u.
Proof.
  rewrite <- EnumType_is_true. destruct (EnumType_is values u); split;
    congruence.
Qed.

Lemma append_assoc (a b c : string) : (a ++ b) ++ c = a ++ (b ++ c).
Proof.
  induction a as [| x a IH]; simpl; [reflexivity | now rewrite IH].
Qed.

Lemma append_String_assoc (a : string) (x : ascii) (b c : string) :
  (a ++ String x b) ++ c = a ++ String x (b ++ c).
Proof.
  now rewrite append_assoc.
Qed.

Lemma join_map_cons {A} (f : A -> string) (sep : string) (x : A)
    (l : list A) :
  l <> [] -> join sep (map f (x :: l)) = f x ++ sep ++ join sep (map f l).
Proof.
  destruct l; [congruence | reflexivity].
Qed.

(* ================================================================== *)
(** ** [getSize] *)

Lemma getSize_other_shape (v : JsValue) :
  WithSize v = false ->
  (exists e, getSize v = Thrown e) /\
  (forall text, ToString v = Returned text ->
     getSize v = Thrown (Error_ ("Unsupported size value " ++ text))) /\
  (forall e, ToString v = Thrown e -> getSize v = Thrown e).
Proof.
  intros Hshape. unfold getSize.
  destruct v; simpl in Hshape; try discriminate; repeat split;
    intros; try congruence.
  all: try (destruct (ToString _) as [text | e]; simpl; eauto; fail).
  all: match goal with
       | H : ToString _ = _ |- _ => rewrite H; reflexivity
       end.
Qed.

(** C8, as the code has it.  [getSize] returns a number itself, the
    length of a string, the number of elements of an array, the
    cardinality of a set and the number of entries of a map.  On a value
    of any other shape it returns nothing and throws: the [Error] with the
    message [Unsupported size value] and the text of the value when the
    value converts to text, as a boolean, [null], [undefined] and a plain
    object without an own [toString] do; and the [TypeError] of the
    conversion when it does not, as for an object with an own
    [toString]. *)
Theorem getSize_spec :
  (forall n, getSize (VNumber n) = Returned n) /\
  (forall s, getSize (VString s) = Returned (Z.of_nat (String.length s))) /\
  (forall l, getSize (VArray l) = Returned (Z.of_nat (List.length l))) /\
  (forall l, getSize (VSet l) = Returned (Z.of_nat (List.length l))) /\
  (forall l, getSize (VMap l) = Returned (Z.of_nat (List.length l))) /\
  (forall v, WithSize v = false ->
     (exists e, getSize v = Thrown e) /\
     (forall text, ToString v = Returned text ->
        getSize v = Thrown (Error_ ("Unsupported size value " ++ text))) /\
     (forall e, ToString v = Thrown e -> getSize v = Thrown e)) /\
  (forall b,
     getSize (VBoolean b)
     = Thrown (Error_ ("Unsupported size value "
                       ++ if b then "true" else "false"))) /\
  getSize VNull = Thrown (Error_ "Unsupported size value null") /\
  getSize VUndefined = Thrown (Error_ "Unsupported size value undefined") /\
  (forall properties,
     has_own_property "toString" properties = false ->
     getSize (VObject properties)
     = Thrown (Error_ "Unsupported size value [object Object]")) /\
  (forall properties,
     has_own_property "toString" properties = true ->
     getSize (VObject properties)
     = Thrown (TypeError "Cannot convert object to primitive value")) /\
  getSize (VNumber 5) = Returned 5 /\
  getSize (VString "abc") = Returned 3 /\
  getSize (VArray [VNumber 1; VNumber 2; VNumber 3]) = Returned 3 /\
  getSize (VSet [VString "a"; VString "b"]) = Returned 2 /\
  getSize (VMap [(VString "k1", VString "v1")]) = Returned 1 /\
  getSize (VBoolean true) = Thrown (Error_ "Unsupported size value true").
Proof.
  repeat match goal with |- _ /\ _ => split end; try reflexivity.
  - apply getSize_other_shape.
  - intros [|]; reflexivity.
  - intros properties Hnone. simpl. now rewrite Hnone.
  - intros properties Hown. simpl. now rewrite Hown.
Qed.

Lemma getSize_spec_witness :
  getSize (VObject [("enabled", VBoolean true)])
  = Thrown (Error_ "Unsupported size value [object Object]") /\
  getSize (VObject [("name", VString "a"); ("toString", VNull)])
  = Thrown (TypeError "Cannot convert object to primitive value") /\
  exists e, getSize (VCidr (mkIPv4CidrRange (10, 0, 0, 0)%N 8%N)) = Thrown e.
Proof.
  destruct getSize_spec
    as [_ [_ [_ [_ [_ [Hother [_ [_ [_ [Hplain [Hown _]]]]]]]]]]].
  split; [| split].
  - apply Hplain. reflexivity.
  - apply Hown. reflexivity.
  - apply (Hother (VCidr (mkIPv4CidrRange (10, 0, 0, 0)%N 8%N))).
    reflexivity.
Defined.

(** C8, as it was stated, fails on an object that has an own [toString]:
    building the message of the error converts the value to text, and that
    conversion throws a [TypeError] before any [Error] is made. *)
Lemma getSize_own_toString_counterexample :
  WithSize (VObject [("toString", VNumber 5)]) = false /\
  getSize (VObject [("toString", VNumber 5)])
  = Thrown (TypeError "Cannot convert object to primitive value") /\
  ~ (forall v, WithSize v = false ->
       exists text,
         getSize v = Thrown (Error_ ("Unsupported size value " ++ text))).
Proof.
  split; [reflexivity | split; [reflexivity |]].
  intros Hall.
  destruct (Hall (VObject [("toString", VNumber 5)]) eq_refl) as [text E].
  discriminate E.
Qed.

(* ================================================================== *)
(** ** [DefaultedType] and [OptionalType] *)

(** C5. On an absent input, [null] or [undefined], the validate of
    [DefaultedType] returns the success of the default value whatever the
    inner codec is, so also for an inner codec whose validate fails or
    throws: the inner validate is not invoked.  On any other input it
    returns what the inner validate returns. *)
Theorem DefaultedType_validate (T : Type_) (d : JsValue)
    (name_ : option string) (c : Context) :
  validate (DefaultedType T d name_) VNull c = Returned (Right d) /\
  validate (DefaultedType T d name_) VUndefined c = Returned (Right d) /\
  (forall u, u <> VNull -> u <> VUndefined ->
     validate (DefaultedType T d name_) u c = validate T u c).
Proof.
  repeat split.
  intros u Hnull Hundef. simpl.
  now rewrite (loose_eq_null_present u Hnull Hundef).
Qed.

Lemma DefaultedType_validate_witness :
  validate (DefaultedType unreachable_codec (VNumber 7) None) VNull []
  = Returned (Right (VNumber 7)) /\
  validate (DefaultedType t_string (VString "d") None) (VNumber 1) []
  = validate t_string (VNumber 1) [].
Proof.
  split.
  - exact (proj1 (DefaultedType_validate unreachable_codec (VNumber 7)
                    None [])).
  - apply (DefaultedType_validate t_string (VString "d") None []);
      discriminate.
Defined.

(** C6. The validate of [OptionalType] returns the success of [undefined]
    on [null] and on [undefined], and on any other input what the inner
    validate returns. *)
Theorem OptionalType_validate (T : Type_) (name_ : option string)
    (c : Context) :
  validate (OptionalType T name_) VNull c = Returned (Right VUndefined) /\
  validate (OptionalType T name_) VUndefined c
  = Returned (Right VUndefined) /\
  (forall x, x <> VNull -> x <> VUndefined ->
     validate (OptionalType T name_) x c = validate T x c).
Proof.
  repeat split.
  intros x Hnull Hundef. simpl.
  now rewrite (loose_eq_null_present x Hnull Hundef).
Qed.

Lemma OptionalType_validate_witness :
  validate (OptionalType unreachable_codec None) VNull []
  = Returned (Right VUndefined) /\
  validate (OptionalType t_string None) (VString "x") []
  = validate t_string (VString "x") [].
Proof.
  split.
  - exact (proj1 (OptionalType_validate unreachable_codec None [])).
  - apply (OptionalType_validate t_string None []); discriminate.
Defined.

(** The encode of [OptionalType] is the inner encode, on every value. *)
Lemma OptionalType_encode_delegates (T : Type_) (name_ : option string)
    (a : JsValue) :
  encode (OptionalType T name_) a = encode T a.
Proof. reflexivity. Qed.

(** C2, at the input where the code departs from it: encoding [undefined]
    through [optional(cidr)] reaches the encode of [cidr], which calls
    [toCidrString] on [undefined] and throws, where the specification has
    [undefined] returned and the inner encode not invoked. *)
Theorem OptionalType_encode_absent_reaches_inner :
  encode (optional cidr None) VUndefined
  = Thrown (TypeError
              "Cannot read properties of undefined (reading 'toCidrString')")
  /\ encode (optional unreachable_codec None) VUndefined
     = Thrown (Error_ "encode was invoked").
Proof. split; reflexivity. Qed.

(* ================================================================== *)
(** ** [SizedType] *)

(** A failure of the inner codec is returned as it is. *)
Lemma SizedType_inner_failure (T : Type_) (props : SizedTypeProps.t)
    (u : JsValue) (c : Context) (errors : Errors) :
  validate T u c = Returned (Left errors) ->
  validate (SizedType T props) u c = Returned (Left errors).
Proof.
  intros E. simpl. now rewrite E.
Qed.

Lemma SizedType_inner_success (T : Type_) (props : SizedTypeProps.t)
    (u : JsValue) (c : Context) (s : JsValue) :
  validate T u c = Returned (Right s) ->
  validate (SizedType T props) u c = SizedType_check props c s.
Proof.
  intros E. simpl. now rewrite E.
Qed.

(** With bounds that are unset or not zero, the check is the documented
    one. *)
Lemma SizedType_nonzero_bounds (T : Type_) (props : SizedTypeProps.t)
    (u : JsValue) (c : Context) (s : JsValue) (size : Z) :
  validate T u c = Returned (Right s) ->
  getSize s = Returned size ->
  SizedTypeProps.min props <> Some 0 ->
  SizedTypeProps.max props <> Some 0 ->
  (within_bounds size props ->
     validate (SizedType T props) u c = Returned (Right s)) /\
  (~ within_bounds size props ->
     validate (SizedType T props) u c
     = Returned (Left [mkValidationError s c
                         (Some (SizedType_message props))])).
Proof.
  intros Hinner Hsize Hmin Hmax.
  rewrite (SizedType_inner_success T props u c s Hinner).
  unfold SizedType_check, within_bounds. rewrite Hsize. simpl.
  destruct props as [[m |] [M |] n msg]; simpl in *.
  all: repeat match goal with
         | |- context [?z =? 0] =>
             destruct (Z.eqb_spec z 0); [subst; congruence |]
         end; simpl.
  all: repeat match goal with
         | |- context [?a <=? ?b] => destruct (Z.leb_spec a b)
         end; simpl.
  all: split; intros Hb; try reflexivity.
  all: try (exfalso; apply Hb; split; intros ? [= <-]; lia).
  all: try (exfalso; destruct Hb as [Hb1 Hb2];
            try specialize (Hb1 _ eq_refl);
            try specialize (Hb2 _ eq_refl); lia).
  all: exfalso; apply Hb; split; intros ? [=].
Qed.

(** C1, at an input where the code departs from it: a bound [max: 0] is
    falsy, so [!props.max] holds and no size is rejected, where the
    specification has every size above [0] rejected with the message
    [Value should be of size [-∞, 0]]. *)
Theorem SizedType_zero_max_is_ignored :
  let props := SizedTypeProps.mk None (Some 0) None None in
  getSize (VString "abc") = Returned 3 /\
  validate (sized t_string props) (VString "abc") []
  = Returned (Right (VString "abc")) /\
  SizedType_message props = "Value should be of size [-∞, 0]" /\
  (forall s c,
     validate (sized t_string props) (VString s) c
     = Returned (Right (VString s))).
Proof.
  repeat split.
Qed.

(** The same with [min: 0]: a number below zero passes. *)
Lemma SizedType_zero_min_is_ignored :
  validate (sized t_number (SizedTypeProps.mk (Some 0) None None None))
    (VNumber (-5)) []
  = Returned (Right (VNumber (-5))).
Proof. reflexivity. Qed.

(** The two checks of the specification on [nonEmptyString]. *)
Lemma nonEmptyString_examples :
  validate nonEmptyString (VString "") []
  = Returned (Left [mkValidationError (VString "") []
                      (Some "Value can not be empty.")]) /\
  validate nonEmptyString (VString "a") [] = Returned (Right (VString "a")).
Proof. split; reflexivity. Qed.

(* ================================================================== *)
(** ** [EnumType] *)

Lemma EnumType_validate_allowed (values : list Literal)
    (props : EnumTypeProps.t) (u : JsValue) (c : Context) :
  allowed values u ->
  validate (EnumType values props) u c = Returned (Right u).
Proof.
  intros Hin. apply EnumType_is_true in Hin. simpl. now rewrite Hin.
Qed.

Lemma EnumType_validate_not_allowed (values : list Literal)
    (props : EnumTypeProps.t) (u : JsValue) (c : Context) :
  ~ allowed values u ->
  validate (EnumType values props) u c
  = Returned (Left [mkValidationError u c
                      (Some (EnumType_message values props))]).
Proof.
  intros Hout. apply EnumType_is_false in Hout. simpl. now rewrite Hout.
Qed.

(** Up to [2^53] in size a number prints as its decimal numeral, with a
    minus sign below zero, and the numeral reads back as the number. *)
Lemma number_to_string_decimal (n : Z) :
  - 9007199254740992 <= n <= 9007199254740992 ->
  number_to_string n = NilZero.string_of_int (Z.to_int n).
Proof.
  intros Hsafe. destruct n as [| p | p]; [reflexivity | |].
  - unfold number_to_string, positive_to_string.
    destruct (Z.leb_spec (Z.pos p) 9007199254740992); [reflexivity | lia].
  - unfold number_to_string, positive_to_string.
    destruct (Z.leb_spec (Z.pos p) 9007199254740992); [reflexivity | lia].
Qed.

Lemma number_to_string_reads_back (n : Z) :
  - 9007199254740992 <= n <= 9007199254740992 ->
  option_map Z.of_int (NilZero.int_of_string (number_to_string n)) = Some n.
Proof.
  intros Hsafe. rewrite (number_to_string_decimal n Hsafe).
  rewrite NilZero.isi.
  - simpl. now rewrite DecimalZ.of_to.
  - destruct n as [| p | p]; try discriminate. simpl.
    intros [= E]. now apply (DecimalPos.Unsigned.to_uint_nonnil p).
  - destruct n as [| p | p]; try discriminate. simpl.
    intros [= E]. now apply (DecimalPos.Unsigned.to_uint_nonnil p).
Qed.

Lemma join_quoted (values : list Literal) :
  values <> [] ->
  dquote
  ++ join (dquote ++ ", " ++ dquote) (map literal_to_string values)
  ++ dquote
  = join ", " (map quoted values).
Proof.
  induction values as [| x l IH]; [congruence |]. intros _.
  destruct l as [| y l].
  - reflexivity.
  - rewrite (join_map_cons quoted) by discriminate.
    rewrite (join_map_cons literal_to_string) by discriminate.
    rewrite <- IH by discriminate. unfold quoted.
    now rewrite !append_assoc.
Qed.

(** C7. The validate of [EnumType] succeeds, with the input unchanged,
    exactly on the inputs equal to an allowed value; on any other input it
    fails with one error, whose message is the custom one when supplied and
    else [Value should be one of] followed by the allowed values, each
    between double quotes, in their order, separated by a comma and a
    space; the encode returns its argument.  An allowed value is listed as
    [Array.prototype.join] prints it: a string as it is, a number as
    [Number::toString] prints it, which up to [2^53] in size is its decimal
    numeral and beyond 21 digits the exponent form. *)
Theorem EnumType_spec (values : list Literal) (props : EnumTypeProps.t)
    (u : JsValue) (c : Context) :
  (allowed values u
   <-> validate (EnumType values props) u c = Returned (Right u)) /\
  (forall a, validate (EnumType values props) u c = Returned (Right a) ->
     a = u) /\
  (~ allowed values u ->
     validate (EnumType values props) u c
     = Returned (Left [mkValidationError u c
                         (Some (EnumType_message values props))])) /\
  (forall m, EnumTypeProps.errorMessage props = Some m ->
     EnumType_message values props = m) /\
  (EnumTypeProps.errorMessage props = None -> values <> [] ->
     EnumType_message values props
     = "Value should be one of " ++ join ", " (map quoted values)) /\
  (forall a, encode (EnumType values props) a = Returned a) /\
  (forall s, quoted (LString s) = dquote ++ s ++ dquote) /\
  (forall n, - 9007199254740992 <= n <= 9007199254740992 ->
     quoted (LNumber n)
     = dquote ++ NilZero.string_of_int (Z.to_int n) ++ dquote /\
     option_map Z.of_int
       (NilZero.int_of_string (literal_to_string (LNumber n)))
     = Some n) /\
  (forall v, ToString (literal_value v) = Returned (literal_to_string v)) /\
  EnumType_message
    [LNumber 1; LString "two"; LNumber (-30); LNumber 9007199254740992;
     LNumber 1000000000000000000000]
    (EnumTypeProps.mk "Mixed" None)
  = "Value should be one of "
    ++ dquote ++ "1" ++ dquote ++ ", "
    ++ dquote ++ "two" ++ dquote ++ ", "
    ++ dquote ++ "-30" ++ dquote ++ ", "
    ++ dquote ++ "9007199254740992" ++ dquote ++ ", "
    ++ dquote ++ "1e+21" ++ dquote.
Proof.
  split; [split |]; [apply EnumType_validate_allowed | |
                     repeat match goal with |- _ /\ _ => split end].
  - intros E. apply EnumType_is_true. simpl in E.
    destruct (EnumType_is values u); [reflexivity | discriminate].
  - intros a. simpl.
    destruct (EnumType_is values u); intros [=]. now subst.
  - apply EnumType_validate_not_allowed.
  - intros m E. unfold EnumType_message. now rewrite E.
  - intros E Hne. unfold EnumType_message. rewrite E.
    now rewrite join_quoted.
  - reflexivity.
  - reflexivity.
  - intros n Hsafe. split.
    + unfold quoted, literal_to_string.
      now rewrite (number_to_string_decimal n Hsafe).
    + now apply number_to_string_reads_back.
  - intros [s | n]; reflexivity.
  - vm_compute. reflexivity.
Qed.

Lemma EnumType_spec_witness :
  validate allowDeny (VString "deny") [] = Returned (Right (VString "deny"))
  /\ validate (enums "AllowDeny" [LString "allow"; LString "deny"] None)
       (VString "maybe") []
     = Returned (Left [mkValidationError (VString "maybe") []
                         (Some ("Value should be one of "
                                ++ dquote ++ "allow" ++ dquote ++ ", "
                                ++ dquote ++ "deny" ++ dquote))])
  /\ validate (enums "Version" [LNumber 1; LNumber 20; LNumber (-3)] None)
       (VString "1") []
     = Returned (Left [mkValidationError (VString "1") []
                         (Some ("Value should be one of "
                                ++ dquote ++ "1" ++ dquote ++ ", "
                                ++ dquote ++ "20" ++ dquote ++ ", "
                                ++ dquote ++ "-3" ++ dquote))])
  /\ quoted (LNumber 484) = dquote ++ "484" ++ dquote.
Proof.
  split; [| split; [| split]].
  - apply (EnumType_spec [LString "allow"; LString "deny"]
             (EnumTypeProps.mk "AllowDeny"
                (Some "Value should be allow or deny"))
             (VString "deny") []).
    exists (LString "deny"). split; [simpl; auto | reflexivity].
  - apply (EnumType_spec [LString "allow"; LString "deny"]
             (EnumTypeProps.mk "AllowDeny" None) (VString "maybe") []).
    intros [v [[<- | [<- | []]] E]]; discriminate.
  - apply (EnumType_spec [LNumber 1; LNumber 20; LNumber (-3)]
             (EnumTypeProps.mk "Version" None) (VString "1") []).
    intros [v [[<- | [<- | [<- | []]]] E]]; discriminate.
  - destruct (EnumType_spec [] (EnumTypeProps.mk "Version" None) VNull [])
      as [_ [_ [_ [_ [_ [_ [_ [Hnumber _]]]]]]]].
    apply (Hnumber 484). lia.
Defined.

(** C10. The seventh allowed value of [storageClass] is the text
    [Value should be an AWS S3 Storage Class.], which was meant as the
    error message: that text validates, unchanged, and an input that is no
    allowed value fails with the generated message, which lists that text
    last among the allowed values. *)
Theorem storageClass_message_is_a_value :
  List.length storageClass_values = 7%nat /\
  nth_error storageClass_values 6
  = Some (LString "Value should be an AWS S3 Storage Class.") /\
  (forall c,
     validate storageClass
       (VString "Value should be an AWS S3 Storage Class.") c
     = Returned (Right (VString "Value should be an AWS S3 Storage Class.")))
  /\
  (forall u c, ~ allowed storageClass_values u ->
     validate storageClass u c
     = Returned (Left [mkValidationError u c
         (Some ("Value should be one of "
                ++ dquote ++ "DEEP_ARCHIVE" ++ dquote ++ ", "
                ++ dquote ++ "GLACIER" ++ dquote ++ ", "
                ++ dquote ++ "GLACIER_IR" ++ dquote ++ ", "
                ++ dquote ++ "STANDARD_IA" ++ dquote ++ ", "
                ++ dquote ++ "INTELLIGENT_TIERING" ++ dquote ++ ", "
                ++ dquote ++ "ONEZONE_IA" ++ dquote ++ ", "
                ++ dquote ++ "Value should be an AWS S3 Storage Class."
                ++ dquote))])).
Proof.
  repeat split.
  intros u c Hout. unfold storageClass, enums.
  now rewrite (EnumType_validate_not_allowed _ _ u c Hout).
Qed.

Lemma storageClass_message_is_a_value_witness :
  validate storageClass (VString "STANDARD") []
  = Returned (Left [mkValidationError (VString "STANDARD") []
      (Some ("Value should be one of "
             ++ dquote ++ "DEEP_ARCHIVE" ++ dquote ++ ", "
             ++ dquote ++ "GLACIER" ++ dquote ++ ", "
             ++ dquote ++ "GLACIER_IR" ++ dquote ++ ", "
             ++ dquote ++ "STANDARD_IA" ++ dquote ++ ", "
             ++ dquote ++ "INTELLIGENT_TIERING" ++ dquote ++ ", "
             ++ dquote ++ "ONEZONE_IA" ++ dquote ++ ", "
             ++ dquote ++ "Value should be an AWS S3 Storage Class."
             ++ dquote))]).
Proof.
  apply (proj2 (proj2 (proj2 storageClass_message_is_a_value))).
  intros [v [Hin E]]. simpl in Hin.
  repeat (destruct Hin as [<- | Hin]; [discriminate |]). exact Hin.
Defined.

(* ================================================================== *)
(** ** [CidrType]: failures *)

Lemma t_string_validate_other (u : JsValue) (c : Context) :
  (forall s, u <> VString s) ->
  validate t_string u c = Returned (Left [mkValidationError u c None]).
Proof.
  intros Hshape. destruct u; try reflexivity. now destruct (Hshape s).
Qed.

Lemma CidrType_validate_returns `{IpNum} (name_ : option string)
    (u : JsValue) (c : Context) :
  exists r, validate (CidrType name_) u c = Returned r.
Proof.
  destruct u; simpl; eauto.
  unfold try_catch. destruct (fromCidr s); simpl; eauto.
Qed.

(** C4. Whatever the parser is, on a text it throws on the validate of
    [CidrType] returns the failure of one error with the message
    [Value {s} should be a CIDR range.]; on an input that is no text it
    returns the failure of the text codec, which has no message; and on no
    input does it throw. *)
Theorem CidrType_validate_failure `{IpNum} (name_ : option string)
    (c : Context) :
  (forall s e, fromCidr s = Thrown e ->
     validate (CidrType name_) (VString s) c
     = Returned (Left [mkValidationError (VString s) c
                         (Some ("Value " ++ s ++ " should be a CIDR range."))]))
  /\
  (forall u, (forall s, u <> VString s) ->
     validate (CidrType name_) u c = validate t_string u c /\
     validate t_string u c = Returned (Left [mkValidationError u c None])) /\
  (forall u, exists r, validate (CidrType name_) u c = Returned r).
Proof.
  split; [| split].
  - intros s e E. simpl. now rewrite E.
  - intros u Hshape.
    pose proof (t_string_validate_other u c Hshape) as E.
    split; [| exact E].
    change (validate (CidrType name_) u c)
      with (r <- validate t_string u c ;; either_chain r (CidrType_parse c)).
    now rewrite E.
  - intros u. apply CidrType_validate_returns.
Qed.

Lemma CidrType_validate_failure_witness :
  validate cidr (VString "not-a-cidr") []
  = Returned (Left [mkValidationError (VString "not-a-cidr") []
                      (Some "Value not-a-cidr should be a CIDR range.")]) /\
  validate cidr (VNumber 42) []
  = Returned (Left [mkValidationError (VNumber 42) [] None]).
Proof.
  split.
  - exact (proj1 (CidrType_validate_failure None []) "not-a-cidr"
             (Error_ "The text is not of the form address/prefixLength")
             eq_refl).
  - destruct (proj1 (proj2 (CidrType_validate_failure None []))
                (VNumber 42)) as [E1 E2]; [discriminate |].
    exact (eq_trans E1 E2).
Defined.

(** The three kinds of text the parser of the model rejects. *)
Lemma cidr_rejected_texts :
  (forall s, In s ["10.0.0.256/16"; "10.0.x.0/16"; "10.0.0.0/33";
                   "10.0.0/16"; "10.0.0.0.0/16"; "10.0.0.0"; ""] ->
     forall c,
       validate cidr (VString s) c
       = Returned (Left [mkValidationError (VString s) c
                           (Some ("Value " ++ s
                                  ++ " should be a CIDR range."))])).
Proof.
  intros s Hin c. simpl in Hin.
  repeat (destruct Hin as [<- | Hin]; [reflexivity |]). destruct Hin.
Qed.

(* ================================================================== *)
(** ** A successful validate yields a member *)

Lemma SizedType_check_success (props : SizedTypeProps.t) (c : Context)
    (s a : JsValue) :
  SizedType_check props c s = Returned (Right a) -> a = s.
Proof.
  unfold SizedType_check. intros E.
  apply bind_Returned in E. destruct E as [size [_ E]].
  match type of E with
  | (if ?b then _ else _) = _ => destruct b
  end; unfold t_success, t_failure in E; congruence.
Qed.

Lemma t_string_sound : validate_sound t_string.
Proof.
  intros u c a. destruct u; simpl; intros [=]. now subst.
Qed.

(** C9. The value of a successful validate satisfies [is]: for
    [CidrType] and [EnumType] outright; for [OptionalType] and
    [SizedType] when it holds of the inner codec; for [DefaultedType] when
    it holds of the inner codec and the default value satisfies the inner
    [is], which is also needed, as the default is returned unchecked. *)
Theorem validate_success_satisfies_is :
  (forall (L : IpNum) name_, validate_sound (@CidrType L name_)) /\
  (forall T d name_,
     validate_sound T -> is_ T d = Returned true ->
     validate_sound (DefaultedType T d name_)) /\
  (forall T d name_,
     validate_sound (DefaultedType T d name_) -> is_ T d = Returned true) /\
  (forall T name_, validate_sound T -> validate_sound (OptionalType T name_))
  /\
  (forall T props, validate_sound T -> validate_sound (SizedType T props)) /\
  (forall values props, validate_sound (EnumType values props)).
Proof.
  repeat split.
  - intros L name_ u c a. destruct u; simpl; try discriminate.
    unfold try_catch. destruct (fromCidr s); simpl; intros [=].
    now subst.
  - intros T d name_ HT Hd u c a. simpl.
    destruct (loose_eq_null u).
    + intros [=]. now subst.
    + apply HT.
  - intros T d name_ HD. exact (HD VNull [] d eq_refl).
  - intros T name_ HT u c a. simpl.
    destruct (loose_eq_null u) eqn:Eu.
    + intros [=]. now subst.
    + intros E. destruct (loose_eq_null a); [reflexivity |].
      exact (HT u c a E).
  - intros T props HT u c a E. simpl in E.
    apply bind_Returned in E. destruct E as [r [Einner E]].
    destruct r as [errors | s]; [discriminate |]. simpl in E.
    apply SizedType_check_success in E. subst a.
    exact (HT u c s Einner).
  - intros values props u c a. simpl.
    destruct (EnumType_is values u) eqn:Eu; intros [=]. subst a.
    now rewrite Eu.
Qed.

Lemma validate_success_satisfies_is_witness :
  validate_sound (DefaultedType t_string (VString "none") None) /\
  validate_sound (OptionalType t_string None) /\
  validate_sound nonEmptyString.
Proof.
  destruct validate_success_satisfies_is as [_ [HD [_ [HO [HS _]]]]].
  split; [| split].
  - apply HD; [exact t_string_sound | reflexivity].
  - apply HO. exact t_string_sound.
  - apply HS. exact t_string_sound.
Defined.

(** A default outside the inner codec breaks the invariant. *)
Lemma DefaultedType_unsound_default :
  ~ validate_sound (DefaultedType t_string (VNumber 0) None).
Proof.
  intros HD. specialize (HD VNull [] (VNumber 0) eq_refl). discriminate.
Qed.

(* ================================================================== *)
(** ** [CidrType]: the round trip *)

(** *** Decimal numerals *)

Lemma all_digits_string_of_uint (d : uint) :
  all_digits (NilEmpty.string_of_uint d) = true.
Proof.
  induction d; simpl; auto.
Qed.

Lemma N_to_uint_nonnil (n : N) : N.to_uint n <> Nil.
Proof.
  destruct n as [| p]; simpl.
  - discriminate.
  - apply DecimalPos.Unsigned.to_uint_nonnil.
Qed.

Lemma decimal_unfold (n : N) :
  decimal n = NilEmpty.string_of_uint (N.to_uint n).
Proof.
  unfold decimal. pose proof (N_to_uint_nonnil n) as Hn.
  destruct (N.to_uint n); [congruence | reflexivity ..].
Qed.

Lemma decimal_all_digits (n : N) : all_digits (decimal n) = true.
Proof.
  rewrite decimal_unfold. apply all_digits_string_of_uint.
Qed.

Lemma decimal_nonempty (n : N) : decimal n <> "".
Proof.
  rewrite decimal_unfold. pose proof (N_to_uint_nonnil n) as Hn.
  destruct (N.to_uint n); [congruence | discriminate ..].
Qed.

Lemma parse_decimal_decimal (n : N) : parse_decimal (decimal n) = Some n.
Proof.
  unfold parse_decimal. destruct (decimal n) as [| a rest] eqn:E.
  - now destruct (decimal_nonempty n).
  - rewrite <- E, decimal_unfold, NilEmpty.usu. simpl.
    now rewrite DecimalN.Unsigned.of_to.
Qed.

Lemma parse_bounded_decimal (bound n : N) :
  (n <= bound)%N -> parse_bounded bound (decimal n) = Some n.
Proof.
  intros Hle. unfold parse_bounded. rewrite parse_decimal_decimal.
  apply N.leb_le in Hle. now rewrite Hle.
Qed.

Lemma parse_bounded_Some (bound : N) (s : string) (n : N) :
  parse_bounded bound s = Some n ->
  parse_decimal s = Some n /\ (n <= bound)%N.
Proof.
  unfold parse_bounded. destruct (parse_decimal s) as [m |]; [| discriminate].
  destruct (N.leb_spec m bound); intros [=]. subst. now split.
Qed.

(** Reading a canonical numeral and printing the number gives the numeral
    back. *)
Lemma canonical_numeral_decimal (s : string) (n : N) :
  canonical_numeral s = true -> parse_decimal s = Some n -> decimal n = s.
Proof.
  destruct s as [| a rest]; [discriminate |].
  intros Hcanon Hparse. unfold parse_decimal in Hparse.
  destruct (NilEmpty.uint_of_string (String a rest)) as [d |] eqn:E;
    [| discriminate].
  injection Hparse as <-.
  pose proof (NilEmpty.sus _ _ E) as Hprint.
  unfold decimal. rewrite DecimalN.Unsigned.to_of.
  simpl in E.
  destruct (NilEmpty.uint_of_string rest) as [d' |] eqn:Erest;
    [| discriminate].
  apply uint_of_char_spec in E.
  destruct E as [[-> ->] | E].
  { destruct rest; [| discriminate Hcanon].
    injection Erest as <-. reflexivity. }
  repeat (destruct E as [[-> ->] | E]; [exact Hprint |]).
  destruct E as [-> ->]. exact Hprint.
Qed.

(** *** Splitting at a separator *)

Lemma split_nonempty (sep : ascii) (s : string) : split sep s <> [].
Proof.
  destruct s as [| a rest]; simpl; [discriminate |].
  destruct (Ascii.eqb a sep); [discriminate |].
  destruct (split sep rest); discriminate.
Qed.

Lemma split_free (sep : ascii) (s : string) :
  free_of sep s = true -> split sep s = [s].
Proof.
  induction s as [| a rest IH]; simpl; [reflexivity |].
  intros Hfree. apply andb_true_iff in Hfree. destruct Hfree as [Ha Hrest].
  apply negb_true_iff in Ha. rewrite Ha, (IH Hrest). reflexivity.
Qed.

Lemma split_append (sep : ascii) (a b : string) :
  free_of sep a = true -> split sep (a ++ String sep b) = a :: split sep b.
Proof.
  induction a as [| x a IH]; simpl.
  - intros _. now rewrite Ascii.eqb_refl.
  - intros Hfree. apply andb_true_iff in Hfree. destruct Hfree as [Hx Ha].
    apply negb_true_iff in Hx. rewrite Hx, (IH Ha). reflexivity.
Qed.

Lemma free_of_append (sep : ascii) (a b : string) :
  free_of sep (a ++ b) = free_of sep a && free_of sep b.
Proof.
  induction a as [| x a IH]; simpl; [reflexivity |].
  now rewrite IH, andb_assoc.
Qed.

Lemma all_digits_free (sep : ascii) (s : string) :
  is_digit sep = false -> all_digits s = true -> free_of sep s = true.
Proof.
  intros Hsep. induction s as [| a rest IH]; simpl; [reflexivity |].
  intros Hdigits. apply andb_true_iff in Hdigits.
  destruct Hdigits as [Ha Hrest]. rewrite (IH Hrest), andb_true_r.
  apply negb_true_iff. destruct (Ascii.eqb_spec a sep); [| reflexivity].
  congruence.
Qed.

Lemma decimal_free (sep : ascii) (n : N) :
  is_digit sep = false -> free_of sep (decimal n) = true.
Proof.
  intros Hsep. apply all_digits_free; [exact Hsep |].
  apply decimal_all_digits.
Qed.

(** Joining the pieces of a split with the separator gives the text
    back. *)
Lemma join_split (sep : ascii) (s : string) :
  join (String sep "") (split sep s) = s.
Proof.
  induction s as [| a rest IH]; simpl; [reflexivity |].
  pose proof (split_nonempty sep rest) as Hne.
  destruct (Ascii.eqb_spec a sep) as [-> | Hneq].
  - destruct (split sep rest) as [| x xs]; [congruence |].
    simpl in *. now rewrite IH.
  - destruct (split sep rest) as [| x xs]; [congruence |].
    destruct xs as [| y xs]; simpl in *; now rewrite <- IH.
Qed.

(** *** The network address *)

Lemma octets_of_number (a b c d : N) :
  (a <= 255 -> b <= 255 -> c <= 255 -> d <= 255 ->
   let n := ((a * 256 + b) * 256 + c) * 256 + d in
   (n / 16777216) mod 256 = a /\ (n / 65536) mod 256 = b /\
   (n / 256) mod 256 = c /\ n mod 256 = d)%N.
Proof.
  intros Ha Hb Hc Hd n. subst n.
  repeat split; zify; Z.to_euclidean_division_equations; lia.
Qed.

Lemma number_of_octets (n : N) :
  (n < 4294967296 ->
   (((n / 16777216) mod 256 * 256 + (n / 65536) mod 256) * 256
    + (n / 256) mod 256) * 256 + n mod 256 = n)%N.
Proof.
  intros Hn. zify; Z.to_euclidean_division_equations; lia.
Qed.

Lemma range_in_bounds_spec (a b c d p : N) :
  range_in_bounds (mkIPv4CidrRange (a, b, c, d) p) = true
  <-> (a <= 255 /\ b <= 255 /\ c <= 255 /\ d <= 255 /\ p <= 32)%N.
Proof.
  unfold range_in_bounds. cbn [ipv4 cidrPrefix].
  rewrite !andb_true_iff, !N.leb_le. tauto.
Qed.

Lemma cleared_number (n host : N) :
  N.shiftl (N.shiftr n host) host = (n / 2 ^ host * 2 ^ host)%N.
Proof.
  now rewrite N.shiftl_mul_pow2, N.shiftr_div_pow2.
Qed.

(** Clearing the host bits leaves a network address as it is. *)
Lemma clear_host_bits_fixed (r : IPv4CidrRange) :
  range_in_bounds r = true -> host_bits_clear r = true ->
  clear_host_bits r = r.
Proof.
  destruct r as [[[[a b] c] d] p]. intros Hbounds Hclear.
  apply range_in_bounds_spec in Hbounds.
  destruct Hbounds as [Ha [Hb [Hc [Hd Hp]]]].
  unfold host_bits_clear in Hclear. apply N.eqb_eq in Hclear.
  unfold clear_host_bits. rewrite cleared_number.
  cbn [cidrPrefix] in *.
  apply N.Div0.div_exact in Hclear.
  rewrite N.mul_comm, <- Hclear.
  unfold address_number. cbn [ipv4].
  destruct (octets_of_number a b c d Ha Hb Hc Hd) as [-> [-> [-> ->]]].
  reflexivity.
Qed.

(** Clearing the host bits gives a valid range. *)
Lemma clear_host_bits_valid (r : IPv4CidrRange) :
  range_in_bounds r = true -> valid_range (clear_host_bits r) = true.
Proof.
  destruct r as [[[[a b] c] d] p]. intros Hbounds.
  apply range_in_bounds_spec in Hbounds.
  destruct Hbounds as [Ha [Hb [Hc [Hd Hp]]]].
  unfold valid_range, clear_host_bits. rewrite cleared_number.
  cbn [cidrPrefix].
  set (addr := address_number (mkIPv4CidrRange (a, b, c, d) p)).
  set (unit := (2 ^ (32 - p))%N).
  assert (Haddr : (addr < 4294967296)%N).
  { unfold addr, address_number. cbn [ipv4]. lia. }
  assert (Hle : (addr / unit * unit <= addr)%N).
  { rewrite N.mul_comm. apply N.Div0.mul_div_le. }
  apply andb_true_iff. split.
  - apply range_in_bounds_spec. repeat split; try exact Hp.
    all: apply N.lt_succ_r; apply N.mod_lt; discriminate.
  - unfold host_bits_clear, address_number. cbn [ipv4 cidrPrefix].
    rewrite number_of_octets by lia.
    apply N.eqb_eq. fold unit. apply N.Div0.mod_mul.
Qed.

(** *** The parser and the printer *)

Lemma parse_cidr_toCidrString (r : IPv4CidrRange) :
  range_in_bounds r = true ->
  parse_cidr (IPv4CidrRange_toCidrString r) = Returned r.
Proof.
  destruct r as [[[[a b] c] d] p]. intros Hbounds.
  apply range_in_bounds_spec in Hbounds.
  destruct Hbounds as [Ha [Hb [Hc [Hd Hp]]]].
  unfold parse_cidr, IPv4CidrRange_toCidrString.
  cbn [ipv4 cidrPrefix].
  set (ip := decimal a ++ "." ++ decimal b ++ "." ++ decimal c ++ "."
             ++ decimal d).
  assert (Etext : decimal a ++ "." ++ decimal b ++ "." ++ decimal c ++ "."
                  ++ decimal d ++ "/" ++ decimal p
                  = ip ++ String "/" (decimal p)).
  { unfold ip. rewrite !append_assoc. reflexivity. }
  assert (Hfree : free_of "/" ip = true).
  { unfold ip. rewrite !free_of_append, !decimal_free by reflexivity.
    reflexivity. }
  rewrite Etext, (split_append "/" ip _ Hfree).
  rewrite (split_free "/" (decimal p)) by (now apply decimal_free).
  unfold ip. simpl append.
  rewrite !split_append by (now apply decimal_free).
  rewrite (split_free "." (decimal d)) by (now apply decimal_free).
  now rewrite !parse_bounded_decimal by assumption.
Qed.

Lemma parse_cidr_in_bounds (s : string) (r : IPv4CidrRange) :
  parse_cidr s = Returned r -> range_in_bounds r = true.
Proof.
  unfold parse_cidr.
  destruct (split "/" s) as [| ip [| prefix [| ? ?]]]; try discriminate.
  destruct (split "." ip) as [| a [| b [| c [| d [| ? ?]]]]];
    try discriminate.
  destruct (parse_bounded 255 a) as [a' |] eqn:Ea; [| discriminate].
  destruct (parse_bounded 255 b) as [b' |] eqn:Eb; [| discriminate].
  destruct (parse_bounded 255 c) as [c' |] eqn:Ec; [| discriminate].
  destruct (parse_bounded 255 d) as [d' |] eqn:Ed; [| discriminate].
  destruct (parse_bounded 32 prefix) as [p |] eqn:Ep; [| discriminate].
  intros [= <-]. apply range_in_bounds_spec.
  apply parse_bounded_Some in Ea, Eb, Ec, Ed, Ep. tauto.
Qed.

Lemma toCidrString_parse_cidr (s : string) :
  canonical_numerals s = true ->
  exists r,
    parse_cidr s = Returned r /\
    IPv4CidrRange_toCidrString r = s.
Proof.
  unfold canonical_numerals, parse_cidr. intros Hcanon.
  pose proof (join_split "/" s) as Etext.
  destruct (split "/" s) as [| ip [| prefix [| ? ?]]]; try discriminate.
  pose proof (join_split "." ip) as Eip.
  destruct (split "." ip) as [| a [| b [| c [| d [| ? ?]]]]];
    try discriminate.
  apply andb_true_iff in Hcanon. destruct Hcanon as [Hcanon Hprefix].
  apply andb_true_iff in Hcanon. destruct Hcanon as [Hnumerals Hoctets].
  simpl in Hnumerals, Hoctets.
  destruct (parse_bounded 255 a) as [a' |] eqn:Ea; [| discriminate].
  destruct (parse_bounded 255 b) as [b' |] eqn:Eb; [| discriminate].
  destruct (parse_bounded 255 c) as [c' |] eqn:Ec; [| discriminate].
  destruct (parse_bounded 255 d) as [d' |] eqn:Ed; [| discriminate].
  destruct (parse_bounded 32 prefix) as [p |] eqn:Ep; [| discriminate].
  exists (mkIPv4CidrRange (a', b', c', d') p). split; [reflexivity |].
  repeat (apply andb_true_iff in Hnumerals;
          destruct Hnumerals as [? Hnumerals]).
  unfold IPv4CidrRange_toCidrString. cbn [ipv4 cidrPrefix].
  rewrite (canonical_numeral_decimal a a'),
          (canonical_numeral_decimal b b'),
          (canonical_numeral_decimal c c'),
          (canonical_numeral_decimal d d'),
          (canonical_numeral_decimal prefix p);
    try assumption;
    try (eapply proj1, parse_bounded_Some; eassumption).
  rewrite <- Etext, <- Eip. simpl.
  now rewrite !append_String_assoc.
Qed.

(** The parser reads what the printer prints of a valid range. *)
Lemma fromCidr_toCidrString (r : IPv4CidrRange) :
  valid_range r = true ->
  IPv4CidrRange_fromCidr (IPv4CidrRange_toCidrString r) = Returned r.
Proof.
  unfold valid_range. intros Hvalid.
  apply andb_true_iff in Hvalid. destruct Hvalid as [Hbounds Hclear].
  unfold IPv4CidrRange_fromCidr.
  rewrite (parse_cidr_toCidrString r Hbounds). simpl.
  now rewrite (clear_host_bits_fixed r Hbounds Hclear).
Qed.

(** The printer prints a canonical text the parser has read. *)
Lemma toCidrString_fromCidr (s : string) :
  canonical_cidr s = true ->
  exists r,
    IPv4CidrRange_fromCidr s = Returned r /\
    IPv4CidrRange_toCidrString r = s.
Proof.
  unfold canonical_cidr. intros Hcanon.
  apply andb_true_iff in Hcanon. destruct Hcanon as [Hsyntax Hclear].
  destruct (toCidrString_parse_cidr s Hsyntax) as [r [Eparse Eprint]].
  rewrite Eparse in Hclear. exists r. split; [| exact Eprint].
  unfold IPv4CidrRange_fromCidr. rewrite Eparse. simpl.
  now rewrite (clear_host_bits_fixed r (parse_cidr_in_bounds s r Eparse)
                 Hclear).
Qed.

(** The parser yields valid ranges only. *)
Lemma fromCidr_valid_range (s : string) (r : IPv4CidrRange) :
  IPv4CidrRange_fromCidr s = Returned r -> valid_range r = true.
Proof.
  unfold IPv4CidrRange_fromCidr. intros E.
  apply bind_Returned in E. destruct E as [r0 [Eparse E]].
  injection E as <-.
  exact (clear_host_bits_valid r0 (parse_cidr_in_bounds s r0 Eparse)).
Qed.

Lemma clear_host_bits_examples :
  clear_host_bits (mkIPv4CidrRange (10, 0, 0, 5)%N 16%N)
  = mkIPv4CidrRange (10, 0, 0, 0)%N 16%N /\
  clear_host_bits (mkIPv4CidrRange (10, 0, 0, 0)%N 16%N)
  = mkIPv4CidrRange (10, 0, 0, 0)%N 16%N /\
  clear_host_bits (mkIPv4CidrRange (192, 168, 77, 255)%N 20%N)
  = mkIPv4CidrRange (192, 168, 64, 0)%N 20%N.
Proof. repeat split. Qed.

(** C3. For every valid network range [x], four octets that are a
    network address and a prefix length in [0,32], the encode of [cidr]
    returns a text on which its validate succeeds with [x]; for every text
    [s] in canonical CIDR notation, the validate of [cidr] succeeds and the
    encode of its value returns [s]; so [10.0.0.0/16] validates to the
    address [10.0.0.0] with the prefix length [16], which encodes to
    [10.0.0.0/16].  Leading zeros and host bits set in a text are not
    kept: such a text validates to the range of the normalized form and
    encodes to it. *)
Theorem cidr_round_trip :
  (forall x c, valid_range x = true ->
     exists s,
       encode cidr (VCidr x) = Returned (VString s) /\
       validate cidr (VString s) c = Returned (Right (VCidr x))) /\
  (forall s c, canonical_cidr s = true ->
     exists x,
       validate cidr (VString s) c = Returned (Right (VCidr x)) /\
       encode cidr (VCidr x) = Returned (VString s)) /\
  canonical_cidr "10.0.0.0/16" = true /\
  valid_range (mkIPv4CidrRange (10, 0, 0, 0)%N 16%N) = true /\
  validate cidr (VString "10.0.0.0/16") []
  = Returned (Right (VCidr (mkIPv4CidrRange (10, 0, 0, 0)%N 16%N))) /\
  encode cidr (VCidr (mkIPv4CidrRange (10, 0, 0, 0)%N 16%N))
  = Returned (VString "10.0.0.0/16") /\
  validate cidr (VString "010.0.00.5/16") []
  = Returned (Right (VCidr (mkIPv4CidrRange (10, 0, 0, 0)%N 16%N))) /\
  validate cidr (VString "192.168.1.7/24") []
  = Returned (Right (VCidr (mkIPv4CidrRange (192, 168, 1, 0)%N 24%N))) /\
  encode cidr (VCidr (mkIPv4CidrRange (192, 168, 1, 0)%N 24%N))
  = Returned (VString "192.168.1.0/24").
Proof.
  split; [| split; [| repeat split]].
  - intros x c Hvalid. exists (IPv4CidrRange_toCidrString x).
    split; [reflexivity |].
    cbn [validate cidr CidrType t_string bind either_chain t_success
         CidrType_parse fromCidr ip_num].
    now rewrite (fromCidr_toCidrString x Hvalid).
  - intros s c Hcanon.
    destruct (toCidrString_fromCidr s Hcanon) as [x [Eparse Eprint]].
    exists x. split.
    + cbn [validate cidr CidrType t_string bind either_chain t_success
           CidrType_parse fromCidr ip_num].
      now rewrite Eparse.
    + cbn [encode cidr CidrType CidrType_encode toCidrString ip_num].
      now rewrite Eprint.
Qed.

Lemma cidr_round_trip_witness :
  (exists s,
     encode cidr (VCidr (mkIPv4CidrRange (192, 168, 1, 0)%N 24%N))
     = Returned (VString s) /\
     validate cidr (VString s) []
     = Returned (Right (VCidr (mkIPv4CidrRange (192, 168, 1, 0)%N 24%N))))
  /\
  (exists x,
     validate cidr (VString "172.16.0.0/12") []
     = Returned (Right (VCidr x)) /\
     encode cidr (VCidr x) = Returned (VString "172.16.0.0/12")).
Proof.
  split.
  - apply (proj1 cidr_round_trip
             (mkIPv4CidrRange (192, 168, 1, 0)%N 24%N) []).
    reflexivity.
  - apply (proj1 (proj2 cidr_round_trip) "172.16.0.0/12" []).
    reflexivity.
Defined.

(* ================================================================== *)
(** * Further properties of the codecs *)

(** ** [SizedType] and [getSize] *)

Lemma SizedType_check_context (props : SizedTypeProps.t) (c c' : Context)
    (s a : JsValue) :
  SizedType_check props c s = Returned (Right a) ->
  SizedType_check props c' s = Returned (Right s).
Proof.
  unfold SizedType_check. destruct (getSize s) as [size | e]; simpl;
    [| discriminate].
  match goal with
  | |- (if ?b then _ else _) = _ -> _ => destruct b
  end; [reflexivity | discriminate].
Qed.

Lemma SizedType_success_inner (T : Type_) (props : SizedTypeProps.t)
    (u : JsValue) (c : Context) (a : JsValue) :
  validate (SizedType T props) u c = Returned (Right a) ->
  validate T u c = Returned (Right a) /\
  SizedType_check props c a = Returned (Right a).
Proof.
  intros E. simpl in E. apply bind_Returned in E.
  destruct E as [r [Einner E]].
  destruct r as [errors | s]; [discriminate |]. simpl in E.
  pose proof (SizedType_check_success props c s a E) as ->.
  now split.
Qed.

(** X1. [SizedType] adds nothing to what the inner codec rejects: a
    failure of the inner validate is returned as it is, an exception of
    the inner validate propagates, and a success of [SizedType] is a
    success of the inner validate with the same value. *)
Theorem SizedType_inner_outcome (T : Type_) (props : SizedTypeProps.t)
    (u : JsValue) (c : Context) :
  (forall errors,
     validate T u c = Returned (Left errors) ->
     validate (SizedType T props) u c = Returned (Left errors)) /\
  (forall e,
     validate T u c = Thrown e ->
     validate (SizedType T props) u c = Thrown e) /\
  (forall a,
     validate (SizedType T props) u c = Returned (Right a) ->
     validate T u c = Returned (Right a)).
Proof.
  split; [| split].
  - intros errors E. simpl. now rewrite E.
  - intros e E. simpl. now rewrite E.
  - intros a E. now apply SizedType_success_inner in E.
Qed.

Lemma SizedType_inner_outcome_witness :
  validate nonEmptyString (VNumber 3) []
  = Returned (Left [mkValidationError (VNumber 3) [] None]) /\
  validate (SizedType unreachable_codec SizedTypeProps.empty) (VNumber 3) []
  = Thrown (Error_ "validate was invoked") /\
  validate t_string (VString "a") [] = Returned (Right (VString "a")).
Proof.
  split; [| split].
  - apply (proj1 (SizedType_inner_outcome t_string
                    (SizedTypeProps.mk (Some 1) None None
                       (Some "Value can not be empty."))
                    (VNumber 3) [])).
    reflexivity.
  - apply (proj1 (proj2 (SizedType_inner_outcome unreachable_codec
                           SizedTypeProps.empty (VNumber 3) []))).
    reflexivity.
  - apply (proj2 (proj2 (SizedType_inner_outcome t_string
                           (SizedTypeProps.mk (Some 1) None None
                              (Some "Value can not be empty."))
                           (VString "a") []))).
    reflexivity.
Defined.

(** X2. When the inner validate succeeds with a value of size [size], a
    bound [min: 0] is met by it and a bound [max: 0] is met by it, the
    validate of [SizedType] succeeds with that value if the size is within
    the bounds that are set, and else fails with one error that carries the
    value, the context and the message. *)
Theorem SizedType_documented_bounds (T : Type_) (props : SizedTypeProps.t)
    (u : JsValue) (c : Context) (s : JsValue) (size : Z) :
  validate T u c = Returned (Right s) ->
  getSize s = Returned size ->
  (SizedTypeProps.min props = Some 0 -> 0 <= size) ->
  (SizedTypeProps.max props = Some 0 -> size <= 0) ->
  (within_bounds size props ->
     validate (SizedType T props) u c = Returned (Right s)) /\
  (~ within_bounds size props ->
     validate (SizedType T props) u c
     = Returned (Left [mkValidationError s c
                         (Some (SizedType_message props))])).
Proof.
  intros Hinner Hsize Hmin Hmax.
  rewrite (SizedType_inner_success T props u c s Hinner).
  unfold SizedType_check, within_bounds. rewrite Hsize. simpl.
  destruct props as [[m |] [M |] n msg]; simpl in *.
  all: repeat match goal with
         | |- context [?z =? 0] => destruct (Z.eqb_spec z 0); [subst |]
         end; simpl.
  all: repeat match goal with
         | |- context [?a <=? ?b] => destruct (Z.leb_spec a b)
         end; simpl.
  all: try specialize (Hmin eq_refl); try specialize (Hmax eq_refl).
  all: split; intros Hb; try reflexivity.
  all: try (exfalso; apply Hb; split; intros ? [= <-]; lia).
  all: try (exfalso; destruct Hb as [Hb1 Hb2];
            try specialize (Hb1 _ eq_refl);
            try specialize (Hb2 _ eq_refl); lia).
  all: exfalso; apply Hb; split; intros ? [=].
Qed.

Lemma SizedType_documented_bounds_witness :
  validate (sized t_string (SizedTypeProps.mk (Some 0) (Some 2) None None))
    (VString "ab") []
  = Returned (Right (VString "ab")) /\
  validate (sized t_string (SizedTypeProps.mk (Some 0) (Some 2) None None))
    (VString "abc") []
  = Returned (Left [mkValidationError (VString "abc") []
                      (Some "Value should be of size [0, 2]")]).
Proof.
  split.
  - apply (proj1 (SizedType_documented_bounds t_string
                    (SizedTypeProps.mk (Some 0) (Some 2) None None)
                    (VString "ab") [] (VString "ab") 2
                    eq_refl eq_refl ltac:(simpl; lia)
                    ltac:(simpl; discriminate))).
    split; simpl; intros ? [= <-]; lia.
  - apply (proj2 (SizedType_documented_bounds t_string
                    (SizedTypeProps.mk (Some 0) (Some 2) None None)
                    (VString "abc") [] (VString "abc") 3
                    eq_refl eq_refl ltac:(simpl; lia)
                    ltac:(simpl; discriminate))).
    intros [_ Hmax]. specialize (Hmax 2 eq_refl). lia.
Defined.

Lemma truthy_drop_zero_bound (bound : option Z) :
  truthy (drop_zero_bound bound) = truthy bound.
Proof.
  destruct bound as [[| p | p] |]; reflexivity.
Qed.

Lemma size_ge_drop_zero_bound (size : Z) (bound : option Z) :
  truthy bound = true ->
  size_ge size (drop_zero_bound bound) = size_ge size bound.
Proof.
  destruct bound as [[| p | p] |]; simpl; try discriminate; reflexivity.
Qed.

Lemma size_le_drop_zero_bound (size : Z) (bound : option Z) :
  truthy bound = true ->
  size_le size (drop_zero_bound bound) = size_le size bound.
Proof.
  destruct bound as [[| p | p] |]; simpl; try discriminate; reflexivity.
Qed.

(** The test of [SizedType] on a size, as its validate computes it. *)
Lemma SizedType_check_drop_zero_bounds (props : SizedTypeProps.t)
    (c : Context) (s a : JsValue) :
  SizedType_check props c s = Returned (Right a)
  <-> SizedType_check (drop_zero_bounds props) c s = Returned (Right a).
Proof.
  unfold SizedType_check. destruct (getSize s) as [size | e]; simpl;
    [| reflexivity].
  rewrite !truthy_drop_zero_bound.
  destruct (truthy (SizedTypeProps.min props)) eqn:Emin;
    destruct (truthy (SizedTypeProps.max props)) eqn:Emax; simpl;
    rewrite ?(size_ge_drop_zero_bound size _ Emin),
            ?(size_le_drop_zero_bound size _ Emax);
    try match goal with
      | |- (if ?b then _ else _) = _ <-> _ => destruct b
      end;
    split; intros E; first [exact E | discriminate E].
Qed.

(** X3. A bound that is [0] counts as no bound: the validate of
    [SizedType] succeeds with a value under some bounds exactly when it
    succeeds with it under the same bounds without those that are zero,
    so [max: 0] rejects nothing and [min: 0] lets the numbers below zero
    pass. *)
Theorem SizedType_zero_bounds_unset (T : Type_) (props : SizedTypeProps.t)
    (u : JsValue) (c : Context) (a : JsValue) :
  validate (SizedType T props) u c = Returned (Right a)
  <-> validate (SizedType T (drop_zero_bounds props)) u c
      = Returned (Right a).
Proof.
  simpl. destruct (validate T u c) as [[errors | s] | e]; simpl.
  - reflexivity.
  - apply SizedType_check_drop_zero_bounds.
  - reflexivity.
Qed.

Lemma SizedType_zero_bounds_unset_witness :
  validate (sized t_number (SizedTypeProps.mk (Some 0) (Some 0) None None))
    (VNumber 7) []
  = Returned (Right (VNumber 7)).
Proof.
  apply (proj2 (SizedType_zero_bounds_unset t_number
                  (SizedTypeProps.mk (Some 0) (Some 0) None None)
                  (VNumber 7) [] (VNumber 7))).
  reflexivity.
Defined.

(** X4. When the inner validate succeeds with a value that has no size,
    one that is no number, string, array, set or map, the validate of
    [SizedType] returns no result and throws what [getSize] throws on that
    value: the [Error] with the message [Unsupported size value] and the
    text of the value, or the [TypeError] of converting the value to text
    when that fails; so [sized(optional(...))] throws on an absent
    input. *)
Theorem SizedType_unmeasurable_throws (T : Type_) (props : SizedTypeProps.t)
    (u : JsValue) (c : Context) (s : JsValue) :
  validate T u c = Returned (Right s) ->
  WithSize s = false ->
  (exists e, validate (SizedType T props) u c = Thrown e) /\
  (forall text, ToString s = Returned text ->
     validate (SizedType T props) u c
     = Thrown (Error_ ("Unsupported size value " ++ text))) /\
  (forall e, ToString s = Thrown e ->
     validate (SizedType T props) u c = Thrown e).
Proof.
  intros Hinner Hshape.
  rewrite (SizedType_inner_success T props u c s Hinner).
  unfold SizedType_check.
  destruct (getSize_other_shape s Hshape) as [[e0 Ethrow] [Htext Hfail]].
  split; [| split].
  - exists e0. now rewrite Ethrow.
  - intros text E. now rewrite (Htext text E).
  - intros e E. now rewrite (Hfail e E).
Qed.

Lemma SizedType_unmeasurable_throws_witness :
  validate
    (sized (optional t_string None)
       (SizedTypeProps.mk (Some 1) None None None))
    VNull []
  = Thrown (Error_ "Unsupported size value undefined") /\
  validate
    (sized (defaulted t_string (VObject [("toString", VString "x")]) None)
       (SizedTypeProps.mk (Some 1) None None None))
    VNull []
  = Thrown (TypeError "Cannot convert object to primitive value").
Proof.
  split.
  - exact (proj1 (proj2 (SizedType_unmeasurable_throws
                           (optional t_string None)
                           (SizedTypeProps.mk (Some 1) None None None)
                           VNull [] VUndefined eq_refl eq_refl))
             "undefined" eq_refl).
  - exact (proj2 (proj2 (SizedType_unmeasurable_throws
                           (defaulted t_string
                              (VObject [("toString", VString "x")]) None)
                           (SizedTypeProps.mk (Some 1) None None None)
                           VNull [] (VObject [("toString", VString "x")])
                           eq_refl eq_refl))
             (TypeError "Cannot convert object to primitive value")
             eq_refl).
Defined.

(** X5. [SizedType] keeps the round trip of the inner codec: when every
    value the inner validate succeeds with is encoded to an output it
    validates back to that value, the same holds of [SizedType] over it,
    whatever the bounds. *)
Theorem SizedType_round_trip (T : Type_) (props : SizedTypeProps.t) :
  round_trip T -> round_trip (SizedType T props).
Proof.
  intros HT u c a E.
  apply SizedType_success_inner in E. destruct E as [Einner Echeck].
  destruct (HT u c a Einner) as [o [Eencode Eback]].
  exists o. split; [exact Eencode |].
  intros c'. rewrite (SizedType_inner_success T props o c' a (Eback c')).
  exact (SizedType_check_context props c c' a a Echeck).
Qed.

Lemma t_string_round_trip : round_trip t_string.
Proof.
  intros u c a E. destruct u; simpl in E; try discriminate.
  injection E as <-. exists (VString s). split; reflexivity.
Qed.

Lemma SizedType_round_trip_witness : round_trip nonEmptyString.
Proof.
  exact (SizedType_round_trip t_string
           (SizedTypeProps.mk (Some 1) None None
              (Some "Value can not be empty."))
           t_string_round_trip).
Defined.

(* ================================================================== *)
(** ** [nonEmptyString] *)

Lemma nonEmptyString_validate_string (a : ascii) (rest : string)
    (c : Context) :
  validate nonEmptyString (VString (String a rest)) c
  = Returned (Right (VString (String a rest))).
Proof.
  cbn -[Z.of_nat Z.leb]. 
  replace (1 <=? Z.of_nat (S (String.length rest))) with true;
    [reflexivity |].
  symmetry. apply Z.leb_le. lia.
Qed.

(** X6. The validate of [nonEmptyString] succeeds, with the input
    unchanged, exactly on the strings that are not empty; on the empty
    string it fails with the message [Value can not be empty.] and on an
    input that is no string with the failure of the string codec, which has
    no message.  Its [is] does not look at the size: it holds of the empty
    string. *)
Theorem nonEmptyString_spec (u : JsValue) (c : Context) :
  (validate nonEmptyString u c = Returned (Right u)
   <-> exists s, u = VString s /\ s <> "") /\
  (forall a, validate nonEmptyString u c = Returned (Right a) -> a = u) /\
  (u = VString "" ->
     validate nonEmptyString u c
     = Returned (Left [mkValidationError u c
                         (Some "Value can not be empty.")])) /\
  ((forall s, u <> VString s) ->
     validate nonEmptyString u c
     = Returned (Left [mkValidationError u c None])) /\
  is_ nonEmptyString (VString "") = Returned true.
Proof.
  repeat split.
  - intros E. destruct u; try discriminate E.
    exists s. split; [reflexivity |]. intros ->. discriminate E.
  - intros [s [-> Hs]]. destruct s as [| a rest]; [congruence |].
    apply nonEmptyString_validate_string.
  - intros a E. destruct u; try discriminate E.
    destruct s as [| x rest]; [discriminate E |].
    rewrite nonEmptyString_validate_string in E. congruence.
  - intros ->. reflexivity.
  - intros Hshape. destruct u; try reflexivity. now destruct (Hshape s).
Qed.

Lemma nonEmptyString_spec_witness :
  validate nonEmptyString (VString "ou-root") []
  = Returned (Right (VString "ou-root")) /\
  validate nonEmptyString (VBoolean true) []
  = Returned (Left [mkValidationError (VBoolean true) [] None]).
Proof.
  split.
  - apply (proj2 (proj1 (nonEmptyString_spec (VString "ou-root") []))).
    exists "ou-root". split; [reflexivity | discriminate].
  - apply (proj1 (proj2 (proj2 (proj2
              (nonEmptyString_spec (VBoolean true) []))))).
    discriminate.
Defined.

(** X7. The validate of [optional(nonEmptyString)] succeeds with
    [undefined] on [null] and [undefined] and with the input on a string
    that is not empty; it fails on the empty string with the message
    [Value can not be empty.] and on any other input without a message. *)
Theorem optional_nonEmptyString_spec (u : JsValue) (c : Context) :
  let T := optional nonEmptyString None in
  (u = VNull \/ u = VUndefined ->
     validate T u c = Returned (Right VUndefined)) /\
  (forall s, u = VString s -> s <> "" ->
     validate T u c = Returned (Right u)) /\
  (u = VString "" ->
     validate T u c
     = Returned (Left [mkValidationError u c
                         (Some "Value can not be empty.")])) /\
  (u <> VNull -> u <> VUndefined -> (forall s, u <> VString s) ->
     validate T u c = Returned (Left [mkValidationError u c None])).
Proof.
  repeat split.
  - intros [-> | ->]; reflexivity.
  - intros s -> Hs. destruct s as [| a rest]; [congruence |].
    apply nonEmptyString_validate_string.
  - intros ->. reflexivity.
  - intros Hnull Hundef Hshape.
    destruct u; try reflexivity; try congruence.
Qed.

Lemma optional_nonEmptyString_spec_witness :
  validate (optional nonEmptyString None) VNull []
  = Returned (Right VUndefined) /\
  validate (optional nonEmptyString None) (VString "") []
  = Returned (Left [mkValidationError (VString "") []
                      (Some "Value can not be empty.")]) /\
  validate (optional nonEmptyString None) (VNumber 0) []
  = Returned (Left [mkValidationError (VNumber 0) [] None]).
Proof.
  split; [| split].
  - apply (proj1 (optional_nonEmptyString_spec VNull [])). now left.
  - apply (proj1 (proj2 (proj2
              (optional_nonEmptyString_spec (VString "") [])))).
    reflexivity.
  - apply (proj2 (proj2 (proj2
              (optional_nonEmptyString_spec (VNumber 0) []))));
      discriminate.
Defined.

(* ================================================================== *)
(** ** [EnumType] *)

(** X8. [EnumType] compares with [===], so the shape counts: a string is
    accepted exactly when that string is among the values, a number exactly
    when that number is among them, so the number [1] is not accepted for
    the string [1] nor the other way round; and an input of any other
    shape, [null] and [undefined] too, is rejected whatever the values
    are. *)
Theorem EnumType_accepts_by_shape (values : list Literal)
    (props : EnumTypeProps.t) (c : Context) :
  (forall s,
     validate (EnumType values props) (VString s) c
     = Returned (Right (VString s))
     <-> In (LString s) values) /\
  (forall n,
     validate (EnumType values props) (VNumber n) c
     = Returned (Right (VNumber n))
     <-> In (LNumber n) values) /\
  (forall u, (forall s, u <> VString s) -> (forall n, u <> VNumber n) ->
     validate (EnumType values props) u c
     = Returned (Left [mkValidationError u c
                         (Some (EnumType_message values props))])).
Proof.
  split; [| split].
  - intros s. split.
    + intros E. simpl in E.
      destruct (EnumType_is values (VString s)) eqn:Eis; [| discriminate].
      apply EnumType_is_true in Eis. destruct Eis as [v [Hin Ev]].
      destruct v; simpl in Ev; [| discriminate]. now injection Ev as ->.
    + intros Hin. apply EnumType_validate_allowed.
      now exists (LString s).
  - intros n. split.
    + intros E. simpl in E.
      destruct (EnumType_is values (VNumber n)) eqn:Eis; [| discriminate].
      apply EnumType_is_true in Eis. destruct Eis as [v [Hin Ev]].
      destruct v; simpl in Ev; [discriminate |]. now injection Ev as ->.
    + intros Hin. apply EnumType_validate_allowed.
      now exists (LNumber n).
  - intros u Hstring Hnumber. apply EnumType_validate_not_allowed.
    intros [v [_ Ev]]. destruct v; simpl in Ev.
    + now apply (Hstring s).
    + now apply (Hnumber n).
Qed.

Lemma EnumType_accepts_by_shape_witness :
  validate (enums "Version" [LNumber 1; LNumber 2] None) (VNumber 2) []
  = Returned (Right (VNumber 2)) /\
  (validate (enums "Version" [LNumber 1; LNumber 2] None) (VString "2") []
   = Returned (Right (VString "2")) -> False) /\
  validate allowDeny VNull []
  = Returned (Left [mkValidationError VNull []
                      (Some "Value should be allow or deny")]).
Proof.
  split; [| split].
  - apply (proj1 (proj2 (EnumType_accepts_by_shape
                           [LNumber 1; LNumber 2]
                           (EnumTypeProps.mk "Version" None) []))).
    simpl. auto.
  - intros E.
    apply (proj1 (EnumType_accepts_by_shape [LNumber 1; LNumber 2]
                    (EnumTypeProps.mk "Version" None) [])) in E.
    simpl in E. destruct E as [E | [E | []]]; discriminate E.
  - apply (proj2 (proj2 (EnumType_accepts_by_shape
                           [LString "allow"; LString "deny"]
                           (EnumTypeProps.mk "AllowDeny"
                              (Some "Value should be allow or deny")) [])));
      discriminate.
Defined.

(** X9. [EnumType] has the round trip, and its [is] and its validate
    agree: a value the validate succeeds with is encoded to itself and
    validates to itself again in every context, and [is] holds of an input
    exactly when the validate succeeds on it. *)
Theorem EnumType_round_trip (values : list Literal)
    (props : EnumTypeProps.t) :
  round_trip (EnumType values props) /\
  (forall u c,
     is_ (EnumType values props) u = Returned true
     <-> validate (EnumType values props) u c = Returned (Right u)).
Proof.
  split.
  - intros u c a E. simpl in E.
    destruct (EnumType_is values u) eqn:Eis; [| discriminate].
    injection E as <-. exists u. split; [reflexivity |].
    intros c'. simpl. now rewrite Eis.
  - intros u c. simpl.
    destruct (EnumType_is values u); split; intros E;
      try reflexivity; discriminate.
Qed.

Lemma EnumType_round_trip_witness :
  exists o,
    encode enableDisable (VString "enable") = Returned o /\
    forall c', validate enableDisable o c'
               = Returned (Right (VString "enable")).
Proof.
  exact (proj1 (EnumType_round_trip [LString "enable"; LString "disable"]
                  (EnumTypeProps.mk "EnableDisable"
                     (Some "Value should be enable or disable")))
           (VString "enable") [] (VString "enable") eq_refl).
Defined.

(* ================================================================== *)
(** ** [CidrType] *)

(** X10. The validate of [CidrType] reads texts only: on a value its
    [is] holds of, a network range already decoded, it fails with the
    failure of the string codec; a decoded value has to be encoded before
    it validates again. *)
Theorem CidrType_rejects_decoded `{IpNum} (name_ : option string)
    (v : JsValue) (c : Context) :
  is_ (CidrType name_) v = Returned true ->
  validate (CidrType name_) v c
  = Returned (Left [mkValidationError v c None]).
Proof.
  destruct v; simpl; intros E; try discriminate. reflexivity.
Qed.

Lemma CidrType_rejects_decoded_witness :
  validate cidr (VCidr (mkIPv4CidrRange (10, 0, 0, 0)%N 16%N)) []
  = Returned (Left [mkValidationError
                      (VCidr (mkIPv4CidrRange (10, 0, 0, 0)%N 16%N))
                      [] None]).
Proof.
  exact (CidrType_rejects_decoded None
           (VCidr (mkIPv4CidrRange (10, 0, 0, 0)%N 16%N)) [] eq_refl).
Defined.

(** X11. [CidrType] has the round trip whenever the parser reads what
    the printer prints of a range it has parsed: a value the validate
    succeeds with is a network range, its encode returns a text, and the
    validate of that text succeeds with the same range in every context. *)
Theorem CidrType_round_trip `{IpNum} (name_ : option string) :
  (forall s r, fromCidr s = Returned r ->
               fromCidr (toCidrString r) = Returned r) ->
  round_trip (CidrType name_) /\
  (forall u c a,
     validate (CidrType name_) u c = Returned (Right a) ->
     exists s r, u = VString s /\ a = VCidr r /\ fromCidr s = Returned r).
Proof.
  intros Hstable.
  assert (Hshape : forall u c a,
             validate (CidrType name_) u c = Returned (Right a) ->
             exists s r,
               u = VString s /\ a = VCidr r /\ fromCidr s = Returned r).
  { intros u c a E. destruct u; simpl in E; try discriminate.
    unfold try_catch in E. destruct (fromCidr s) as [r | e] eqn:Eparse;
      simpl in E; [| discriminate].
    injection E as <-. now exists s, r. }
  split; [| exact Hshape].
  intros u c a E. destruct (Hshape u c a E) as [s [r [-> [-> Eparse]]]].
  exists (VString (toCidrString r)). split; [reflexivity |].
  intros c'. simpl. now rewrite (Hstable s r Eparse).
Qed.

Lemma CidrType_round_trip_witness : round_trip cidr.
Proof.
  apply (CidrType_round_trip (H := ip_num) None).
  intros s r Eparse.
  exact (fromCidr_toCidrString r (fromCidr_valid_range s r Eparse)).
Defined.

(* ================================================================== *)
(** ** The wrappers composed *)

Lemma t_string_present_values : present_values t_string.
Proof.
  intros u c a E. destruct u; simpl in E; try discriminate.
  injection E as <-. split; [reflexivity |].
  intros o [= <-]. reflexivity.
Qed.

(** X12. The order of the wrappers decides what an absent input, [null]
    or [undefined], gives.  [optional] around [defaulted] returns
    [undefined]: the default is not applied.  [defaulted] around
    [optional] and [defaulted] around [sized] return the default, which no
    codec has looked at.  [sized] around [defaulted] measures the default:
    it fails when the size of the default is outside bounds that are set
    and not zero. *)
Theorem wrapper_order (T : Type_) (d : JsValue) (props : SizedTypeProps.t)
    (u : JsValue) (c : Context) :
  loose_eq_null u = true ->
  validate (optional (defaulted T d None) None) u c
  = Returned (Right VUndefined) /\
  validate (defaulted (optional T None) d None) u c = Returned (Right d) /\
  validate (defaulted (sized T props) d None) u c = Returned (Right d) /\
  (forall size,
     getSize d = Returned size ->
     SizedTypeProps.min props <> Some 0 ->
     SizedTypeProps.max props <> Some 0 ->
     ~ within_bounds size props ->
     validate (sized (defaulted T d None) props) u c
     = Returned (Left [mkValidationError d c
                         (Some (SizedType_message props))])).
Proof.
  intros Habsent. repeat split.
  - simpl. now rewrite Habsent.
  - simpl. now rewrite Habsent.
  - simpl. now rewrite Habsent.
  - intros size Hsize Hmin Hmax Hout.
    assert (Einner : validate (defaulted T d None) u c = Returned (Right d)).
    { simpl. now rewrite Habsent. }
    exact (proj2 (SizedType_nonzero_bounds (defaulted T d None) props
                    u c d size Einner Hsize Hmin Hmax) Hout).
Qed.

Lemma wrapper_order_witness :
  validate (optional (defaulted t_string (VString "") None) None) VNull []
  = Returned (Right VUndefined) /\
  validate
    (defaulted
       (sized t_string
          (SizedTypeProps.mk (Some 1) None None
             (Some "Value can not be empty.")))
       (VString "") None)
    VNull []
  = Returned (Right (VString "")) /\
  validate
    (sized (defaulted t_string (VString "") None)
       (SizedTypeProps.mk (Some 1) None None
          (Some "Value can not be empty.")))
    VNull []
  = Returned (Left [mkValidationError (VString "") []
                      (Some "Value can not be empty.")]).
Proof.
  pose proof (wrapper_order t_string (VString "")
                (SizedTypeProps.mk (Some 1) None None
                   (Some "Value can not be empty."))
                VNull [] eq_refl) as [H1 [_ [H3 H4]]].
  split; [exact H1 | split; [exact H3 |]].
  apply (H4 0); try reflexivity; try discriminate.
  intros [Hmin _]. specialize (Hmin 1 eq_refl). lia.
Defined.

(** X13. [OptionalType] keeps the round trip of an inner codec that
    decodes to present values and encodes them to present values, provided
    the inner encode returns [null] or [undefined] on [undefined]; and it
    has no round trip when the inner encode throws on [undefined], as the
    encode of [cidr] does. *)
Theorem OptionalType_round_trip (T : Type_) (name_ : option string) :
  (round_trip T -> present_values T ->
   (exists o, encode T VUndefined = Returned o /\ loose_eq_null o = true) ->
   round_trip (OptionalType T name_)) /\
  (round_trip (OptionalType T name_) ->
   exists o, encode T VUndefined = Returned o).
Proof.
  split.
  - intros HT Hpresent [o0 [Eundef Habsent]] u c a E. simpl in E.
    destruct (loose_eq_null u) eqn:Eu.
    + injection E as <-. exists o0. split; [exact Eundef |].
      intros c'. simpl. now rewrite Habsent.
    + destruct (HT u c a E) as [o [Eencode Eback]].
      exists o. split; [exact Eencode |].
      intros c'. simpl.
      rewrite (proj2 (Hpresent u c a E) o Eencode). apply Eback.
  - intros HO.
    destruct (HO VNull [] VUndefined eq_refl) as [o [Eencode _]].
    now exists o.
Qed.

Lemma OptionalType_round_trip_witness :
  round_trip (optional t_string None) /\
  ~ round_trip (optional cidr None).
Proof.
  split.
  - apply (proj1 (OptionalType_round_trip t_string None)).
    + exact t_string_round_trip.
    + exact t_string_present_values.
    + exists VUndefined. split; reflexivity.
  - intros HO.
    destruct (proj2 (OptionalType_round_trip cidr None) HO) as [o E].
    discriminate E.
Defined.

(** X14. Over an inner codec that has the round trip and decodes to
    present values and encodes them to present values, [DefaultedType] has
    the round trip exactly when the default has it: its encoding is
    returned and validates back to the default.  The default is never
    validated, so a default the inner codec rejects breaks the round
    trip. *)
Theorem DefaultedType_round_trip (T : Type_) (d : JsValue)
    (name_ : option string) :
  round_trip T -> present_values T ->
  (round_trip (DefaultedType T d name_)
   <-> exists o,
         encode T d = Returned o /\
         forall c',
           validate (DefaultedType T d name_) o c' = Returned (Right d)).
Proof.
  intros HT Hpresent. split.
  - intros HD. exact (HD VNull [] d eq_refl).
  - intros [od [Edefault Hback]] u c a E. simpl in E.
    destruct (loose_eq_null u) eqn:Eu.
    + injection E as <-. now exists od.
    + destruct (HT u c a E) as [o [Eencode Eback]].
      exists o. split; [exact Eencode |].
      intros c'. simpl.
      rewrite (proj2 (Hpresent u c a E) o Eencode). apply Eback.
Qed.

Lemma DefaultedType_round_trip_witness :
  round_trip (defaulted t_string (VString "none") None) /\
  ~ round_trip (defaulted t_string (VNumber 0) None).
Proof.
  split.
  - apply (proj2 (DefaultedType_round_trip t_string (VString "none") None
                    t_string_round_trip t_string_present_values)).
    exists (VString "none"). split; reflexivity.
  - intros HD.
    apply (proj1 (DefaultedType_round_trip t_string (VNumber 0) None
                    t_string_round_trip t_string_present_values)) in HD.
    destruct HD as [o [Eencode Hback]]. injection Eencode as <-.
    specialize (Hback []). discriminate Hback.
Defined.
